(** * lunar-phase-card: the [Moon] adapter of [src/utils/moon.ts]

    A shallow embedding of the class [Moon], which wraps the SunCalc
    library and turns its raw output into the items the card displays.

    Conventions of the embedding.
    - A finite JavaScript number is the rational it denotes ([Q]); the
      infinities and [NaN] are explicit ([JS.number]).  The arithmetic of
      the image selection, of the formatted fraction and age, of the
      recorded altitudes and of the chart bounds is the arithmetic of
      IEEE 754 doubles: a sum, difference, product or quotient is the
      exact result rounded to the nearest double ([JS.round64], ties to
      even, [JS.fl] with the overflow to an infinity).  The quotient
      [degrees / 45] of the compass lookup, the product of the distance
      conversion and the half hours of the rise and set index are taken
      exactly.  What SunCalc returns is taken as finite.  The sign of a
      zero is not kept.  Equations between numbers are stated with [==]
      ([Qeq]).
    - A [Date] is its time value, the milliseconds since the epoch ([Z]),
      so a valid one; a time that may be [NaN] is an [option Date], in the
      part on the snapshot of a day without a rise or a set.
    - A value that may be [undefined] is an [option].
    - An object used as a dictionary is a [gmap] from its keys.
    - What the class imports ([SunCalc], [localize], [formatedTime],
      [formatRelativeTime], [MOON_IMAGES], [formatNumber]) and the built-ins
      of [Date] that depend on the locale or the time zone are fields of
      one record, [Externals]; [convertKmToMiles] of the helpers is modelled
      from the specification. *)

From Stdlib Require Import ZArith QArith Qround Qabs Qpower Lqa Lia Ascii DecimalString.
From stdpp Require Import gmap strings list fin_maps.

Open Scope Q_scope.

(** ** JavaScript primitives *)

Module JS.

(** A [Date], as its time value in milliseconds. *)
Definition Date : Type := Z.

(** Numbers: the finite ones, the infinities and [NaN]. *)
Inductive number : Type :=
| Num (q : Q)
| Infinity
| NegInfinity
| NaN.

(** *** Doubles

    [round64 q] is the double nearest to the real number [q], the one with
    the even significand on a tie: [q] lies in the binade of exponent
    [ilog2 |q|], the doubles around it are the multiples of
    [2 ^ ulp_exp q] (53 bits of significand, and from [2 ^ -1022] down the
    fixed spacing [2 ^ -1074] of the subnormal numbers), and [rne] picks
    the nearest multiple. *)
Definition pow2 (c : Z) : Q := 2 ^ c.

(** [floor (log2 q)] for a positive [q]. *)
Definition ilog2 (q : Q) : Z :=
  let k := (Z.log2 (Qnum q) - Z.log2 (Z.pos (Qden q)))%Z in
  if Qle_bool (pow2 k) q then k else (k - 1)%Z.

Definition ulp_exp (q : Q) : Z := Z.max (ilog2 (Qabs q) - 52) (-1074).

(** The nearest integer, the even one on a tie. *)
Definition rne (q : Q) : Z :=
  let f := Qfloor q in
  match Qcompare (q - inject_Z f) (1 / 2) with
  | Lt => f
  | Gt => (f + 1)%Z
  | Eq => if Z.even f then f else (f + 1)%Z
  end.

Definition round64 (q : Q) : Q :=
  let u := pow2 (ulp_exp q) in
  let m := inject_Z (rne (Qabs q / u)) * u in
  Qred (if Qle_bool 0 q then m else - m).

(** Half way between the largest double and [2 ^ 1024]: from here on a
    result rounds to an infinity. *)
Definition overflow : Q := pow2 1024 - pow2 970.

(** The double, or the infinity, that an exact result rounds to. *)
Definition fl (q : Q) : number :=
  if Qle_bool overflow q then Infinity
  else if Qle_bool q (- overflow) then NegInfinity
  else Num (round64 q).

(** [Math.PI], the double nearest to pi: 884279719003555 / 2^48. *)
Definition Math_PI : Q := 884279719003555 # 281474976710656.

Definition Math_floor (x : Q) : Z := Qfloor x.

Definition Math_ceil (x : Q) : Z := Qceiling x.

(** [Math.round] rounds to the nearest integer, a tie towards +oo. *)
Definition Math_round (x : Q) : Z := Qfloor (x + 1 / 2).

(** [a % b] on integral numbers: the sign follows the dividend. *)
Definition rem (a b : Z) : Z := Z.rem a b.

(** [arr[k]] for an integral number [k]: [undefined] outside the array,
    and a negative [k] is no index at all. *)
Definition array_get {A : Type} (arr : list A) (k : Z) : option A :=
  if (k <? 0)%Z then None else arr !! Z.to_nat k.

(** [Math.max(...xs)] and [Math.min(...xs)]. *)
Definition num_max (a : number) (x : Q) : number :=
  match a with
  | Num y => if Qle_bool x y then Num y else Num x
  | Infinity => Infinity
  | NegInfinity => Num x
  | NaN => NaN
  end.

Definition num_min (a : number) (x : Q) : number :=
  match a with
  | Num y => if Qle_bool y x then Num y else Num x
  | Infinity => Num x
  | NegInfinity => NegInfinity
  | NaN => NaN
  end.

Definition Math_max (xs : list Q) : number := foldl num_max NegInfinity xs.

Definition Math_min (xs : list Q) : number := foldl num_min Infinity xs.

(** [a + x], [a - x] and [Math.ceil(a)] for a number [a] and a finite
    [x]. *)
Definition num_add (a : number) (x : Q) : number :=
  match a with
  | Num y => fl (y + x)
  | Infinity => Infinity
  | NegInfinity => NegInfinity
  | NaN => NaN
  end.

Definition num_sub (a : number) (x : Q) : number :=
  match a with
  | Num y => fl (y - x)
  | Infinity => Infinity
  | NegInfinity => NegInfinity
  | NaN => NaN
  end.

Definition num_ceil (a : number) : number :=
  match a with
  | Num y => Num (inject_Z (Math_ceil y))
  | Infinity => Infinity
  | NegInfinity => NegInfinity
  | NaN => NaN
  end.

(** [x / y] for finite [x] and [y]. *)
Definition fdiv (x y : Q) : number :=
  if Qeq_bool y 0
  then match Qcompare x 0 with
       | Eq => NaN
       | Gt => Infinity
       | Lt => NegInfinity
       end
  else fl (x / y).

(** [a * b]. *)
Definition num_mul (a b : number) : number :=
  match a, b with
  | NaN, _ | _, NaN => NaN
  | Num x, Num y => fl (x * y)
  | Num x, Infinity | Infinity, Num x =>
      match Qcompare x 0 with
      | Eq => NaN
      | Gt => Infinity
      | Lt => NegInfinity
      end
  | Num x, NegInfinity | NegInfinity, Num x =>
      match Qcompare x 0 with
      | Eq => NaN
      | Gt => NegInfinity
      | Lt => Infinity
      end
  | Infinity, Infinity | NegInfinity, NegInfinity => Infinity
  | Infinity, NegInfinity | NegInfinity, Infinity => NegInfinity
  end.

(** Truthiness of a string that may be [undefined]. *)
Definition truthy (s : option string) : bool :=
  match s with
  | Some (String _ _) => true
  | _ => false
  end.

End JS.

Import JS.

(** ** Cardinal direction *)

(** [_convertCardinal] (moon.ts, lines 235-238). *)
Definition cardinalPoints : list string :=
  ["N"; "NE"; "E"; "SE"; "S"; "SW"; "W"; "NW"; "N"]%string.

Definition _convertCardinal (degrees : Q) : option string :=
  array_get cardinalPoints (Math_round (degrees / 45)).

(** The operation in the words of the specification: [round (azimuth / 45)
    mod 8] indexes a table of eight compass points. *)
Definition compassTable : list string :=
  ["N"; "NE"; "E"; "SE"; "S"; "SW"; "W"; "NW"]%string.

Definition cardinalDirection_spec (azimuth : Q) : option string :=
  compassTable !! Z.to_nat (Math_round (azimuth / 45) mod 8).

(** ** [toFixed] *)

Module Fixed.

(** The integer [n] of [Number.prototype.toFixed]: [n / 10^f] is as close
    to the magnitude of [x] as possible, the larger [n] on a tie. *)
Definition scaled (x : Q) (f : nat) : Z :=
  Qfloor (Qabs x * inject_Z (10 ^ Z.of_nat f) + 1 / 2).

(** Below 10^21 [toFixed] prints fixed notation. *)
Definition fixed_range (x : Q) : bool :=
  negb (Qle_bool (inject_Z (10 ^ 21)) (Qabs x)).

Definition negative (x : Q) : bool := negb (Qle_bool 0 x).

Fixpoint zeros (k : nat) : string :=
  match k with
  | O => EmptyString
  | S k' => String "0"%char (zeros k')
  end.

(** The digits of [n], padded on the left to [f + 1] characters, with a
    point before the last [f]. *)
Definition digits (n : Z) (f : nat) : string :=
  let m := NilZero.string_of_uint (N.to_uint (Z.to_N n)) in
  match f with
  | O => m
  | S _ =>
      let m := zeros (S f - String.length m) +:+ m in
      let k := String.length m in
      String.substring 0 (k - f) m +:+ "." +:+ String.substring (k - f) f m
  end.

(** [x.toFixed(f)].  From 10^21 on the result is [String(x)], which
    [toString] stands for. *)
Definition toFixed (toString : Q -> string) (x : Q) (f : nat) : string :=
  if fixed_range x
  then (if negative x then "-" else "") +:+ digits (scaled x f) f
  else toString x.

(** [x.toFixed(f)] for a number that may be an infinity or [NaN]. *)
Definition toFixed_number (toString : Q -> string) (a : number) (f : nat)
    : string :=
  match a with
  | Num x => toFixed toString x f
  | Infinity => "Infinity"
  | NegInfinity => "-Infinity"
  | NaN => "NaN"
  end.

(** The decimal number that the fixed notation of [x.toFixed(f)] spells. *)
Definition decimal (x : Q) (f : nat) : Q :=
  let r := inject_Z (scaled x f) / inject_Z (10 ^ Z.of_nat f) in
  if negative x then - r else r.

(** [Number(x.toFixed(f))]: the double nearest to that decimal number; the
    exponent notation of a number from 10^21 on reads back as the number. *)
Definition Number_toFixed (x : Q) (f : nat) : Q :=
  if fixed_range x then round64 (decimal x f) else x.

End Fixed.

Import Fixed.

(** ** The library and the modules the class imports *)

Module IMoonTimes.
(** Modelled from the spec: the type [SunCalc.IMoonTimes] is declared
    outside [src/]; the source supplies the rise and set instants and an
    optional highest-transit instant. *)
Record t : Type := { rise : Date; set : Date; highest : option Date }.
End IMoonTimes.

Module IIllumination.
(** Modelled from the spec: the illumination part of [SunCalc.IMoonData],
    the fields the class reads ([phase.id], [next.fullMoon.value] and
    [next.newMoon.value] flattened). *)
Record t : Type := {
  fraction : Q;
  phaseValue : Q;
  phase_id : string;
  next_fullMoon_value : Date;
  next_newMoon_value : Date
}.
End IIllumination.

Module IMoonPosition.
(** Modelled from the spec: [SunCalc.IMoonPosition], the fields the class
    reads. *)
Record t : Type := {
  azimuthDegrees : Q;
  altitudeDegrees : Q;
  distance : Q
}.
End IMoonPosition.

Module IMoonData.
(** Modelled from the spec: [SunCalc.IMoonData], the fields the class
    reads; angles in radians, the distance in kilometres. *)
Record t : Type := {
  distance : Q;
  azimuthDegrees : Q;
  altitudeDegrees : Q;
  illumination : IIllumination.t;
  zenithAngle : Q;
  parallacticAngle : Q
}.
End IMoonData.

Module RelativeTime.
(** Modelled from the spec: what [formatRelativeTime] returns, a
    localisation key and an optional placeholder value. *)
Record t : Type := { key : string; value : option string }.
End RelativeTime.

(** What [moon.ts] imports, and the built-ins of [Date] whose result
    depends on the locale or the time zone of the host. *)
Record Externals : Type := {
  FrontendLocaleData : Type;
  (** [localize(string, lang, search, replace)] of [../localize/localize] *)
  localize : string -> string -> string -> string -> string;
  (** [formatedTime(time, amPm, lang)] of [./helpers] *)
  formatedTime : Date -> bool -> string -> string;
  (** [formatRelativeTime(isoString)] of [./helpers] *)
  formatRelativeTime : string -> RelativeTime.t;
  (** [formatNumber(num, locale)] of [custom-card-helpers] *)
  formatNumber : string -> FrontendLocaleData -> string;
  (** [MOON_IMAGES] of [../utils/moon-pic] *)
  MOON_IMAGES : list string;
  (** [SunCalc.getMoonTimes(date, latitude, longitude)] *)
  getMoonTimes : Date -> Q -> Q -> IMoonTimes.t;
  (** [SunCalc.getMoonData(date, latitude, longitude)] *)
  getMoonData : Date -> Q -> Q -> IMoonData.t;
  (** [SunCalc.getMoonPosition(date, latitude, longitude)] *)
  getMoonPosition : Date -> Q -> Q -> IMoonPosition.t;
  (** [date.toISOString()] *)
  toISOString : Date -> string;
  (** [date.toLocaleDateString(lang, { weekday: 'short', month: 'short',
      day: 'numeric' })] *)
  toLocaleDateString : Date -> string -> string;
  (** [date.setHours(0, 0, 0, 0)], the local midnight before [date] *)
  setHours0 : Date -> Date;
  (** [String(x)] *)
  Number_toString : Q -> string
}.

(** ** Distance conversion *)

(** Modelled from the spec: [convertKmToMiles(km, useMiles)] is defined in
    [src/utils/helpers.ts], which is not among the sources; the
    specification gives it as the linear conversion with factor 0.621371
    when [useMiles] holds and as the identity otherwise. *)
Definition helpers_convertKmToMiles (km : Q) (useMiles : bool) : Q :=
  if useMiles then km * 0.621371 else km.

(** ** The class [Moon] *)

Module Config.
(** Modelled from the spec: [LunarPhaseCardConfig] of [../types], the
    fields the class reads. *)
Record t : Type := {
  latitude : Q;
  longitude : Q;
  hr12_format : option bool;
  mile_unit : option bool
}.
End Config.

Module Location.
Record t : Type := { latitude : Q; longitude : Q }.
End Location.

Module MoonDataItem.
Record t : Type := { label : string; value : string; secondValue : string }.
End MoonDataItem.

Module MoonImage.
Record t : Type := { moonPic : option string; rotateDeg : number }.
End MoonImage.

Module MoonData.
Record t : Type := {
  moonFraction : MoonDataItem.t;
  moonAge : MoonDataItem.t;
  moonRise : MoonDataItem.t;
  moonSet : MoonDataItem.t;
  moonHighest : option MoonDataItem.t;
  distance : MoonDataItem.t;
  azimuthDegress : MoonDataItem.t;
  altitudeDegrees : MoonDataItem.t;
  nextFullMoon : MoonDataItem.t;
  nextNewMoon : MoonDataItem.t
}.
End MoonData.

Module MinMaxY.
Record t : Type := { sugestedYMax : number; sugestedYMin : number }.
End MinMaxY.

Section Moon.

Context (ext : Externals).

(** The fields of an instance. *)
Record Moon : Type := {
  _date : Date;
  lang : string;
  location : Location.t;
  config : Config.t;
  locale : FrontendLocaleData ext;
  amPm : bool;
  useMiles : bool
}.

(** The constructor (lines 17-25). *)
Definition new_Moon (date : Date) (lang : string) (config : Config.t)
    (locale : FrontendLocaleData ext) : Moon :=
  {| _date := date;
     lang := lang;
     config := config;
     location := {| Location.latitude := Config.latitude config;
                    Location.longitude := Config.longitude config |};
     locale := locale;
     amPm := default false (Config.hr12_format config);
     useMiles := default false (Config.mile_unit config) |}.

Context (this : Moon).

Definition lat : Q := Location.latitude (location this).
Definition lon : Q := Location.longitude (location this).

(** The private helpers (lines 27-41). *)
Definition this_localize (s search replace : string) : string :=
  localize ext s (lang this) search replace.

Definition formatTime (time : Date) : string :=
  formatedTime ext time (amPm this) (lang this).

Definition convertKmToMiles (km : Q) : Q :=
  helpers_convertKmToMiles km (useMiles this).

Definition this_formatNumber (num : string) : string :=
  formatNumber ext num (locale this).

(** The getters over SunCalc (lines 43-59). *)
Definition _moonTime : IMoonTimes.t := getMoonTimes ext (_date this) lat lon.

Definition _moonData : IMoonData.t := getMoonData ext (_date this) lat lon.

Definition _moonPosition : IMoonPosition.t :=
  getMoonPosition ext (_date this) lat lon.

Definition phaseName : string :=
  this_localize
    ("card.phase." +:+ IIllumination.phase_id (IMoonData.illumination _moonData))
    "" "".

(** [blackBeforeUnit] (lines 65-77). *)
Definition blackBeforeUnit (unit : string) : string :=
  if String.eqb unit "°" then ""
  else if String.eqb unit "%" then
    if existsb (String.eqb (lang this)) ["cs"; "de"; "fi"; "fr"; "sk"; "sv"]
    then " " else ""
  else " ".

(** [createItem] (lines 79-83). *)
Definition createItem (label value : string) (unit secondValue : option string)
    : MoonDataItem.t :=
  {| MoonDataItem.label := this_localize ("card." +:+ label) "" "";
     MoonDataItem.value :=
       value +:+ (if truthy unit
                  then blackBeforeUnit (default "" unit) +:+ default "" unit
                  else "");
     MoonDataItem.secondValue :=
       if truthy secondValue then default "" secondValue else "" |}.

(** [createMoonTime] (lines 85-98), on a valid time; [Partial.createMoonTime]
    below is the call on a time that may be [NaN]. *)
Definition localizeRelativeTime (time : Date) : string :=
  let relativeTime := formatRelativeTime ext (toISOString ext time) in
  if truthy (RelativeTime.value relativeTime)
  then this_localize (RelativeTime.key relativeTime) "{0}"
         (default "" (RelativeTime.value relativeTime))
  else this_localize (RelativeTime.key relativeTime) "" "".

Definition createMoonTime (key : string) (time : Date) : MoonDataItem.t :=
  let timeString := formatTime time in
  let secondValue := localizeRelativeTime time in
  createItem key timeString (Some "") (Some secondValue).

(** [moonImage] (lines 100-108).  [phaseIndex] is
    [Math.floor(phaseValue * 31) % 31]: the floor of an infinite product is
    that infinity and its remainder is [NaN], which is [None] here and no
    index of the array. *)
Definition phaseIndex : option Z :=
  match fl (IIllumination.phaseValue (IMoonData.illumination _moonData) * 31) with
  | Num product => Some (rem (Math_floor product) 31)
  | _ => None
  end.

Definition moonImage : MoonImage.t :=
  let zenithAngle := IMoonData.zenithAngle _moonData in
  let parallacticAngle := IMoonData.parallacticAngle _moonData in
  let rotateDeg :=
    num_mul (fl (zenithAngle - parallacticAngle)) (fdiv 180 Math_PI) in
  {| MoonImage.moonPic :=
       match phaseIndex with
       | Some k => array_get (MOON_IMAGES ext) k
       | None => None
       end;
     MoonImage.rotateDeg := rotateDeg |}.

(** [_getMoonRotation] (lines 110-114). *)
Definition _getMoonRotation : number :=
  let zenithAngle := IMoonData.zenithAngle _moonData in
  let parallacticAngle := IMoonData.parallacticAngle _moonData in
  num_mul (fl (zenithAngle - parallacticAngle)) (fdiv 180 Math_PI).

(** [moonData] (lines 116-153), on valid rise and set times;
    [Partial.moonData] below is the getter on times that may be [NaN]. *)
Definition shortTime (date : Date) : string :=
  toLocaleDateString ext date (lang this).

Definition toFixed2 (x : Q) : string := toFixed (Number_toString ext) x 2.

Definition formatted_moonFraction : string :=
  this_formatNumber
    (toFixed_number (Number_toString ext)
       (fl (IIllumination.fraction (IMoonData.illumination _moonData) * 100)) 2).

(** The literal [29.53] is the double nearest to it. *)
Definition formatted_moonAge : string :=
  this_formatNumber
    (toFixed_number (Number_toString ext)
       (fl (IIllumination.phaseValue (IMoonData.illumination _moonData)
            * round64 29.53)) 2).

Definition formatted_distance : string :=
  this_formatNumber (toFixed2 (convertKmToMiles (IMoonData.distance _moonData))).

Definition formatted_azimuth : string :=
  this_formatNumber (toFixed2 (IMoonData.azimuthDegrees _moonData)).

Definition formatted_altitude : string :=
  this_formatNumber (toFixed2 (IMoonData.altitudeDegrees _moonData)).

Definition moonData : MoonData.t :=
  let illumination := IMoonData.illumination _moonData in
  let fullMoon := IIllumination.next_fullMoon_value illumination in
  let newMoon := IIllumination.next_newMoon_value illumination in
  let rise := IMoonTimes.rise _moonTime in
  let set := IMoonTimes.set _moonTime in
  let highest := IMoonTimes.highest _moonTime in
  {| MoonData.moonFraction :=
       createItem "illumination" formatted_moonFraction (Some "%") None;
     MoonData.moonAge :=
       createItem "moonAge" formatted_moonAge
         (Some (this_localize "card.relativeTime.days" "" "")) None;
     MoonData.moonRise := createMoonTime "moonRise" rise;
     MoonData.moonSet := createMoonTime "moonSet" set;
     MoonData.moonHighest :=
       match highest with
       | Some h => Some (createMoonTime "moonHigh" h)
       | None => None
       end;
     MoonData.distance :=
       createItem "distance" formatted_distance
         (Some (if useMiles this then "mi" else "km")) None;
     MoonData.azimuthDegress :=
       createItem "azimuth" formatted_azimuth (Some "°") None;
     MoonData.altitudeDegrees :=
       createItem "altitude" formatted_altitude (Some "°") None;
     MoonData.nextFullMoon := createItem "fullMoon" (shortTime fullMoon) None None;
     MoonData.nextNewMoon := createItem "newMoon" (shortTime newMoon) None None |}.

(** [_getAltituteData] (lines 211-221): the loop over [i] from 0 to 47
    writes [result[formatedTime]] once per round. *)
Definition sampleTime (startTime : Date) (i : Z) : Date :=
  (startTime + i * 30 * 60 * 1000)%Z.

Definition sampleAltitude (time : Date) : Q :=
  Number_toFixed (IMoonPosition.altitudeDegrees (getMoonPosition ext time lat lon)) 2.

Definition _getAltituteData_step (startTime : Date) (result : gmap string Q)
    (i : Z) : gmap string Q :=
  let time := sampleTime startTime i in
  <[formatTime time := sampleAltitude time]> result.

Definition _getAltituteData (startTime : Date) : gmap string Q :=
  foldl (_getAltituteData_step startTime) ∅ (Z.of_nat <$> seq 0 48).

(** [Object.keys] and [Object.values] of a dictionary. *)
Definition Object_keys (o : gmap string Q) : list string := (map_to_list o).*1.

Definition Object_values (o : gmap string Q) : list Q := (map_to_list o).*2.

(** [todayData] (lines 173-197); [now] is what [new Date()] gives.
    [today.setHours] moves [today] itself to the local midnight. *)
Record TodayData : Type := {
  time : IMoonTimes.t;
  altitude : gmap string Q;
  timeLabels : list string;
  altitudeData : list Q;
  minMaxY : MinMaxY.t;
  moonPhase : IIllumination.t;
  lang_rise : string;
  lang_set : string
}.

Definition todayData (now : Date) : TodayData :=
  let today := setHours0 ext now in
  let startTime := today in
  let _altitudeData := _getAltituteData startTime in
  {| time := getMoonTimes ext today lat lon;
     altitude := _getAltituteData startTime;
     timeLabels := Object_keys _altitudeData;
     altitudeData := Object_values _altitudeData;
     minMaxY :=
       {| MinMaxY.sugestedYMax :=
            num_ceil (num_add (Math_max (Object_values _altitudeData)) 10);
          MinMaxY.sugestedYMin :=
            num_sub (Math_min (Object_values _altitudeData)) 10 |};
     moonPhase := IMoonData.illumination _moonData;
     lang_rise := this_localize "card.moonRise" "" "";
     lang_set := this_localize "card.moonSet" "" "" |}.

(** [todayDataItem] (lines 155-171). *)
Record TodayDataItem : Type := {
  positionFormated : MoonDataItem.t;
  azimuthCardinal : MoonDataItem.t;
  _altitudeDegData : MoonDataItem.t;
  _moonFraction : MoonDataItem.t;
  item_distance : MoonDataItem.t
}.

Definition todayDataItem : TodayDataItem :=
  let azimuthDegrees := IMoonData.azimuthDegrees _moonData in
  let altitudeDegrees := IMoonData.altitudeDegrees _moonData in
  let formatedPosition :=
    if negb (Qle_bool altitudeDegrees 0) then "overHorizon" else "underHorizon" in
  let azimutDegFormated :=
    this_formatNumber (toFixed (Number_toString ext) azimuthDegrees 0) in
  let cardiNalValue := _convertCardinal azimuthDegrees in
  {| positionFormated :=
       createItem "position" (this_localize ("card." +:+ formatedPosition) "" "")
         None None;
     azimuthCardinal := createItem "direction" azimutDegFormated (Some "°") cardiNalValue;
     _altitudeDegData := MoonData.altitudeDegrees moonData;
     _moonFraction := MoonData.moonFraction moonData;
     item_distance := MoonData.distance moonData |}.

End Moon.

Arguments _date {ext} _.
Arguments lang {ext} _.
Arguments location {ext} _.
Arguments config {ext} _.
Arguments locale {ext} _.
Arguments amPm {ext} _.
Arguments useMiles {ext} _.

(** ** A concrete host

    One instance of [Externals], on which the definitions above run: a
    24-hour or 12-hour wall clock in a time zone given by its offset from
    UTC, identity localisation, and a fixed sky. *)

Module Sample.

Definition decimal (n : Z) : string :=
  NilZero.string_of_uint (N.to_uint (Z.to_N n)).

Definition two_digits (n : Z) : string :=
  (if (n <? 10)%Z then "0" else "") +:+ decimal n.

(** Modelled from the spec: [formatedTime(time, amPm, lang)] of
    [./helpers] is not among the sources; the specification has it format
    the wall-clock label per the 12/24-hour setting.  This one shows the
    wall clock of a zone that is [offset time] minutes ahead of UTC at the
    instant [time], as [HH:mm] or as [hh:mm AM/PM]. *)
Definition wallClock (offset : Date -> Z) (time : Date) (amPm : bool)
    (lang : string) : string :=
  let minutes := (((time + offset time * 60000) / 60000) mod 1440)%Z in
  let h := (minutes / 60)%Z in
  let m := (minutes mod 60)%Z in
  if amPm
  then two_digits (if (h mod 12 =? 0)%Z then 12 else h mod 12)%Z
         +:+ ":" +:+ two_digits m +:+ (if (h <? 12)%Z then " AM" else " PM")
  else two_digits h +:+ ":" +:+ two_digits m.

Definition utc (time : Date) : Z := 0%Z.



Definition images : list string :=
  (fun i => "moon-" +:+ decimal (Z.of_nat i)) <$> seq 0 31.

Definition sky_illumination : IIllumination.t :=
  {| IIllumination.fraction := 0.8;
     IIllumination.phaseValue := 0.65;
     IIllumination.phase_id := "waningGibbousMoon";
     IIllumination.next_fullMoon_value := 1706204040000%Z;
     IIllumination.next_newMoon_value := 1704974220000%Z |}.

Definition sky_data (zenithAngle : Q) : IMoonData.t :=
  {| IMoonData.distance := 384400;
     IMoonData.azimuthDegrees := 100;
     IMoonData.altitudeDegrees := 30;
     IMoonData.illumination := sky_illumination;
     IMoonData.zenithAngle := zenithAngle;
     IMoonData.parallacticAngle := 0 |}.

(** An altitude that runs through [-90, 90) once a day. *)
Definition sky_altitude (time : Date) : Q :=
  inject_Z ((time / 60000) mod 1440 - 720) / 8.

Definition sky_position (time : Date) : IMoonPosition.t :=
  {| IMoonPosition.azimuthDegrees := 100;
     IMoonPosition.altitudeDegrees := sky_altitude time;
     IMoonPosition.distance := 384400 |}.

Definition sky_times (highest : option Date) : IMoonTimes.t :=
  {| IMoonTimes.rise := 1704117600000%Z;
     IMoonTimes.set := 1704074400000%Z;
     IMoonTimes.highest := highest |}.

Definition host (offset : Date -> Z) (highest : option Date)
    (zenithAngle : Q) : Externals :=
  {| FrontendLocaleData := unit;
     localize := fun s _ search replace => s;
     formatedTime := wallClock offset;
     formatRelativeTime :=
       fun _ => {| RelativeTime.key := "card.relativeTime.today";
                   RelativeTime.value := None |};
     formatNumber := fun num _ => num;
     MOON_IMAGES := images;
     getMoonTimes := fun _ _ _ => sky_times highest;
     getMoonData := fun _ _ _ => sky_data zenithAngle;
     getMoonPosition := fun time _ _ => sky_position time;
     toISOString := fun _ => "2024-01-01T00:00:00.000Z";
     toLocaleDateString := fun _ _ => "Mon, Jan 1";
     setHours0 := fun now => (now - (now + offset now * 60000) mod 86400000)%Z;
     Number_toString := fun _ => "1e+21" |}.

Definition hanoi (mile_unit : option bool) : Config.t :=
  {| Config.latitude := 21.0285;
     Config.longitude := 105.8542;
     Config.hr12_format := None;
     Config.mile_unit := mile_unit |}.

(** The card of the specification's scenario: Hanoi, 2024-01-01T00:00Z. *)
Definition moon (offset : Date -> Z) (highest : option Date)
    (zenithAngle : Q) (lang : string) (mile_unit : option bool)
    : Moon (host offset highest zenithAngle) :=
  new_Moon (host offset highest zenithAngle) 1704067200000%Z lang
    (hanoi mile_unit) tt.

End Sample.

(** ** Vocabulary of the specification *)

(** U+200A HAIR SPACE, in UTF-8 as the string literals of this file are. *)
Definition hair_space : string :=
  String (ascii_of_nat 226) (String (ascii_of_nat 128)
    (String (ascii_of_nat 138) EmptyString)).

(** The languages that put a space before the percent sign. *)
Definition spaced_percent_languages : list string :=
  ["cs"; "de"; "fi"; "fr"; "sk"; "sv"]%string.

(** [r] is [x] rounded to two decimals: the double nearest to a number of
    two decimals that is as close to [x] as such a number gets. *)
Definition rounded_to_2_decimals (x r : Q) : Prop :=
  exists n : Z,
    Qabs (inject_Z n / 100 - x) <= 1 / 200 /\ r == round64 (inject_Z n / 100).

(** ** Rise and set on the chart *)

(** What a [Date] shows on the clock of the host: [getHours()] and
    [getMinutes()]. *)
Record LocalClock : Type := {
  getHours : Date -> Z;
  getMinutes : Date -> Z
}.

Module RiseSetData.
Record t : Type := { index : Z; altitude : Q }.
End RiseSetData.

Section RiseSet.

Context (ext : Externals) (clock : LocalClock) (this : Moon ext).

(** [_getMoonTime] and [_getMoonPosition] (lines 223-229). *)
Definition _getMoonTime (today : Date) : IMoonTimes.t :=
  getMoonTimes ext today (lat ext this) (lon ext this).

Definition _getMoonPosition (today : Date) : IMoonPosition.t :=
  getMoonPosition ext today (lat ext this) (lon ext this).

(** [timeData[timeKey]], on the three times of [IMoonTimes]; any other
    key, and [highest] when there is no transit, gives [undefined]. *)
Definition timeData_get (timeData : IMoonTimes.t) (timeKey : string)
    : option Date :=
  if String.eqb timeKey "rise" then Some (IMoonTimes.rise timeData)
  else if String.eqb timeKey "set" then Some (IMoonTimes.set timeData)
  else if String.eqb timeKey "highest" then IMoonTimes.highest timeData
  else None.

(** [_getRiseSetData] (lines 199-209); [now] is what [new Date()] gives.
    Without a time under [timeKey] the [Date] is invalid and [index] is
    [NaN]: that is [None]. *)
Definition _getRiseSetData (now : Date) (timeKey : string)
    : option RiseSetData.t :=
  let timeData := getMoonTimes ext now (lat ext this) (lon ext this) in
  match timeData_get timeData timeKey with
  | Some time =>
      let hour :=
        inject_Z (getHours clock time) + inject_Z (getMinutes clock time) / 60 in
      let index := Math_floor (hour * 2) in
      let postition := _getMoonPosition time in
      let altitude := IMoonPosition.altitudeDegrees postition in
      Some {| RiseSetData.index := index; RiseSetData.altitude := altitude |}
  | None => None
  end.

End RiseSet.

(** The clock of the zone of [Sample.wallClock]. *)
Definition sample_clock (offset : Date -> Z) : LocalClock :=
  {| getHours := fun time => (((time + offset time * 60000) / 3600000) mod 24)%Z;
     getMinutes := fun time => (((time + offset time * 60000) / 60000) mod 60)%Z |}.

(** ** The snapshot on a day without a rise or a set

    [SunCalc.getMoonTimes] gives [NaN] for a rise or a set that does not
    happen on the day, and a [highest] only when both happen.  [Date] is
    the type of the valid instants, so [createMoonTime] and [moonData] above
    are the code on valid rise and set times.  Here a time that may be
    [NaN] is an [option Date], and a call returns or throws. *)

Inductive exception : Type :=
| RangeError
| HostError (message : string).

Inductive completion (A : Type) : Type :=
| Normal (a : A)
| Throw (e : exception).

Arguments Normal {A} a.
Arguments Throw {A} e.

Definition bind {A B : Type} (c : completion A) (k : A -> completion B)
    : completion B :=
  match c with
  | Normal a => k a
  | Throw e => Throw e
  end.

Module SunCalcTimes.
(** The result of [SunCalc.getMoonTimes] as the class reads it: [rise] and
    [set] are a [Date] or [NaN], [highest] is a [Date] or missing. *)
Record t : Type := {
  rise : option Date;
  set : option Date;
  highest : option Date
}.

(** The result with a rise and a set, as an [IMoonTimes.t]. *)
Definition valid (times : t) : option IMoonTimes.t :=
  match rise times, set times with
  | Some r, Some s =>
      Some {| IMoonTimes.rise := r; IMoonTimes.set := s;
              IMoonTimes.highest := highest times |}
  | _, _ => None
  end.

(** SunCalc computes [highest] from the rise and the set, when it has
    both. *)
Definition highest_needs_rise_and_set (times : t) : Prop :=
  is_Some (highest times) <-> is_Some (rise times) /\ is_Some (set times).
End SunCalcTimes.

(** What the host does with a time that is [NaN]. *)
Record InvalidTime : Type := {
  (** [SunCalc.getMoonTimes(date, latitude, longitude)], [NaN] included *)
  getMoonTimes_NaN : Date -> Q -> Q -> SunCalcTimes.t;
  (** [formatedTime(NaN, amPm, lang)] of [./helpers] *)
  formatedTime_NaN : bool -> string -> completion string
}.

Module Partial.
Section Partial.

Context (ext : Externals) (host : InvalidTime) (this : Moon ext).

(** [new Date(time).toISOString()] throws a [RangeError] on a time that is
    not finite. *)
Definition Date_toISOString (time : option Date) : completion string :=
  match time with
  | Some t => Normal (toISOString ext t)
  | None => Throw RangeError
  end.

Definition formatTime (time : option Date) : completion string :=
  match time with
  | Some t => Normal (formatedTime ext t (amPm this) (lang this))
  | None => formatedTime_NaN host (amPm this) (lang this)
  end.

Definition _moonTime : SunCalcTimes.t :=
  getMoonTimes_NaN host (_date this) (lat ext this) (lon ext this).

(** [createMoonTime] (lines 85-98): the time is formatted first, the
    relative time after it. *)
Definition localizeRelativeTime (time : option Date) : completion string :=
  bind (Date_toISOString time) (fun iso =>
  let relativeTime := formatRelativeTime ext iso in
  Normal (if truthy (RelativeTime.value relativeTime)
          then this_localize ext this (RelativeTime.key relativeTime) "{0}"
                 (default "" (RelativeTime.value relativeTime))
          else this_localize ext this (RelativeTime.key relativeTime) "" "")).

Definition createMoonTime (key : string) (time : option Date)
    : completion MoonDataItem.t :=
  bind (formatTime time) (fun timeString =>
  bind (localizeRelativeTime time) (fun secondValue =>
  Normal (createItem ext this key timeString (Some "") (Some secondValue)))).

(** [moonData] (lines 116-153): the items of the object literal are
    evaluated in their order, the rise before the set and both before the
    test of [highest]. *)
Definition moonData : completion MoonData.t :=
  let illumination := IMoonData.illumination (_moonData ext this) in
  let fullMoon := IIllumination.next_fullMoon_value illumination in
  let newMoon := IIllumination.next_newMoon_value illumination in
  let rise := SunCalcTimes.rise _moonTime in
  let set := SunCalcTimes.set _moonTime in
  let highest := SunCalcTimes.highest _moonTime in
  let moonFraction :=
    createItem ext this "illumination" (formatted_moonFraction ext this)
      (Some "%") None in
  let moonAge :=
    createItem ext this "moonAge" (formatted_moonAge ext this)
      (Some (this_localize ext this "card.relativeTime.days" "" "")) None in
  bind (createMoonTime "moonRise" rise) (fun moonRise =>
  bind (createMoonTime "moonSet" set) (fun moonSet =>
  bind (match highest with
        | Some h =>
            bind (createMoonTime "moonHigh" (Some h)) (fun item =>
            Normal (Some item))
        | None => Normal None
        end) (fun moonHighest =>
  Normal
    {| MoonData.moonFraction := moonFraction;
       MoonData.moonAge := moonAge;
       MoonData.moonRise := moonRise;
       MoonData.moonSet := moonSet;
       MoonData.moonHighest := moonHighest;
       MoonData.distance :=
         createItem ext this "distance" (formatted_distance ext this)
           (Some (if useMiles this then "mi" else "km")) None;
       MoonData.azimuthDegress :=
         createItem ext this "azimuth" (formatted_azimuth ext this)
           (Some "°") None;
       MoonData.altitudeDegrees :=
         createItem ext this "altitude" (formatted_altitude ext this)
           (Some "°") None;
       MoonData.nextFullMoon :=
         createItem ext this "fullMoon" (shortTime ext this fullMoon) None None;
       MoonData.nextNewMoon :=
         createItem ext this "newMoon" (shortTime ext this newMoon) None None |}))).

End Partial.
End Partial.

(** A day on which the moon sets but does not rise. *)
Definition sample_no_rise : InvalidTime :=
  {| getMoonTimes_NaN := fun _ _ _ =>
       {| SunCalcTimes.rise := None;
          SunCalcTimes.set := Some 1704074400000%Z;
          SunCalcTimes.highest := None |};
     formatedTime_NaN := fun _ _ => Normal "Invalid Date"%string |}.

(** A day with a rise, a set and a transit. *)
Definition sample_rise_and_set : InvalidTime :=
  {| getMoonTimes_NaN := fun _ _ _ =>
       {| SunCalcTimes.rise := Some 1704117600000%Z;
          SunCalcTimes.set := Some 1704074400000%Z;
          SunCalcTimes.highest := Some 1704096000000%Z |};
     formatedTime_NaN := fun _ _ => Normal "Invalid Date"%string |}.

(** ** Arithmetic helpers *)

(** [lra] does not read a division; a division by a literal becomes a
    product. *)
Ltac qdiv :=
  unfold Qdiv in *;
  repeat match goal with
  | |- context [ / (Z.pos ?n # ?d) ] =>
      change (/ (Z.pos n # d)) with (Z.pos d # n) in *
  | H : context [ / (Z.pos ?n # ?d) ] |- _ =>
      change (/ (Z.pos n # d)) with (Z.pos d # n) in *
  end.

(** An integer literal injected into [Q] is the literal. *)
Ltac qlit :=
  repeat match goal with
  | |- context [ inject_Z 0 ] => change (inject_Z 0) with 0 in *
  | |- context [ inject_Z (Z.pos ?p) ] =>
      change (inject_Z (Z.pos p)) with (Z.pos p # 1) in *
  | |- context [ inject_Z (Z.neg ?p) ] =>
      change (inject_Z (Z.neg p)) with (Z.neg p # 1) in *
  | H : context [ inject_Z 0 ] |- _ => change (inject_Z 0) with 0 in *
  | H : context [ inject_Z (Z.pos ?p) ] |- _ =>
      change (inject_Z (Z.pos p)) with (Z.pos p # 1) in *
  | H : context [ inject_Z (Z.neg ?p) ] |- _ =>
      change (inject_Z (Z.neg p)) with (Z.neg p # 1) in *
  end.

Ltac qsolve := qdiv; qlit; lra.

Lemma Qfloor_bounds (x : Q) (a b : Z) :
  inject_Z a <= x -> x < inject_Z b -> (a <= Qfloor x < b)%Z.
Proof.
  intros Ha Hb. split.
  - rewrite <- (Qfloor_Z a). by apply Qfloor_resp_le.
  - pose proof (Qfloor_le x) as H. apply Z.lt_nge. intros Hc.
    rewrite Zle_Qle in Hc. lra.
Qed.

Lemma Math_round_bounds (x : Q) (a b : Z) :
  inject_Z a - 1 / 2 <= x -> x < inject_Z b - 1 / 2 ->
  (a <= Math_round x < b)%Z.
Proof.
  intros Ha Hb. unfold Math_round. apply Qfloor_bounds; qdiv; lra.
Qed.

(** ** Doubles: how rounding behaves *)

Lemma pow2_pos (c : Z) : 0 < pow2 c.
Proof. apply Qpower_0_lt. reflexivity. Qed.

Lemma pow2_le (a b : Z) : (a <= b)%Z -> pow2 a <= pow2 b.
Proof. intros H. apply Qpower_le_compat_l; [exact H | discriminate]. Qed.

Lemma pow2_lt (a b : Z) : (a < b)%Z -> pow2 a < pow2 b.
Proof. intros H. apply Qpower_lt_compat_l; [exact H | reflexivity]. Qed.

Lemma pow2_lt_inv (a b : Z) : pow2 a < pow2 b -> (a < b)%Z.
Proof. intros H. apply (Qpower_lt_compat_l_inv 2); [exact H | reflexivity]. Qed.

Lemma pow2_add (a b : Z) : pow2 (a + b) == pow2 a * pow2 b.
Proof. apply Qpower_plus. discriminate. Qed.

Lemma pow2_Z (n : Z) : (0 <= n)%Z -> pow2 n == inject_Z (2 ^ n).
Proof. intros H. unfold pow2. rewrite (Zpower_Qpower 2 n H). reflexivity. Qed.

Lemma pow2_succ (a : Z) : pow2 (a + 1) == 2 * pow2 a.
Proof. rewrite pow2_add. change (pow2 1) with 2. ring. Qed.

Lemma ilog2_spec (q : Q) :
  0 < q -> pow2 (ilog2 q) <= q /\ q < pow2 (ilog2 q + 1).
Proof.
  intros Hq. destruct q as [n d].
  assert (Hn : (0 < n)%Z) by (unfold Qlt in Hq; simpl in Hq; lia).
  unfold ilog2. cbn [Qnum Qden].
  set (a := Z.log2 n). set (b := Z.log2 (Z.pos d)).
  destruct (Z.log2_spec n Hn) as [Ha1 Ha2]. fold a in Ha1, Ha2.
  destruct (Z.log2_spec (Z.pos d) eq_refl) as [Hb1 Hb2]. fold b in Hb1, Hb2.
  assert (Ha0 : (0 <= a)%Z) by apply Z.log2_nonneg.
  assert (Hb0 : (0 <= b)%Z) by apply Z.log2_nonneg.
  assert (HqD : (n # d) * inject_Z (Z.pos d) == inject_Z n).
  { unfold Qeq, Qmult, inject_Z. simpl. lia. }
  rewrite Zle_Qle, <- pow2_Z in Ha1 by lia.
  rewrite Zlt_Qlt, <- Z.add_1_r, <- pow2_Z in Ha2 by lia.
  rewrite Zle_Qle, <- pow2_Z in Hb1 by lia.
  rewrite Zlt_Qlt, <- Z.add_1_r, <- pow2_Z in Hb2 by lia.
  pose proof (pow2_pos (a - b)) as Hk0.
  pose proof (pow2_pos b) as Hpb.
  assert (Hup : (n # d) < pow2 (a - b + 1)).
  { assert (E : pow2 (a - b + 1) * pow2 b == pow2 (a + 1)).
    { rewrite <- pow2_add. apply Qpower_comp; [reflexivity | lia]. }
    apply Qnot_le_lt. intros Hc.
    assert (H1 : pow2 (a - b + 1) * pow2 b <= (n # d) * inject_Z (Z.pos d)).
    { apply Qle_trans with ((n # d) * pow2 b).
      - apply Qmult_le_compat_r; [exact Hc | lra].
      - apply Qmult_le_l; [exact Hq | exact Hb1]. }
    lra. }
  assert (Hlow : pow2 (a - b - 1) < (n # d)).
  { assert (E : pow2 (a - b - 1) * pow2 (b + 1) == pow2 a).
    { rewrite <- pow2_add. apply Qpower_comp; [reflexivity | lia]. }
    pose proof (pow2_pos (b + 1)) as Hpb1.
    apply Qnot_le_lt. intros Hc.
    assert (H1 : (n # d) * inject_Z (Z.pos d) < pow2 (a - b - 1) * pow2 (b + 1)).
    { apply Qle_lt_trans with (pow2 (a - b - 1) * inject_Z (Z.pos d)).
      - apply Qmult_le_compat_r; [exact Hc | lra].
      - apply Qmult_lt_l; [apply pow2_pos | exact Hb2]. }
    lra. }
  destruct (Qle_bool (pow2 (a - b)) (n # d)) eqn:E.
  - apply Qle_bool_iff in E. split; [exact E | exact Hup].
  - split; [apply Qlt_le_weak; exact Hlow |].
    replace (a - b - 1 + 1)%Z with (a - b)%Z by lia.
    apply Qnot_le_lt. intros Hc. apply Qle_bool_iff in Hc. congruence.
Qed.

Lemma ilog2_unique (q : Q) (e : Z) :
  pow2 e <= q -> q < pow2 (e + 1) -> ilog2 q = e.
Proof.
  intros Hlo Hhi.
  assert (Hq : 0 < q) by (pose proof (pow2_pos e); lra).
  destruct (ilog2_spec q Hq) as [Hl Hh].
  assert (H1 : (ilog2 q < e + 1)%Z) by (apply pow2_lt_inv; lra).
  assert (H2 : (e < ilog2 q + 1)%Z) by (apply pow2_lt_inv; lra).
  lia.
Qed.

Lemma ilog2_mono (x y : Q) : 0 < x -> x <= y -> (ilog2 x <= ilog2 y)%Z.
Proof.
  intros Hx Hxy.
  destruct (ilog2_spec x Hx) as [Hl _].
  destruct (ilog2_spec y) as [_ Hh]; [lra |].
  assert (H : (ilog2 x < ilog2 y + 1)%Z) by (apply pow2_lt_inv; lra).
  lia.
Qed.

Lemma rne_cases (q : Q) :
  let f := Qfloor q in
  (rne q = f /\ q - inject_Z f <= 1 / 2)
  \/ (rne q = (f + 1)%Z /\ 1 / 2 <= q - inject_Z f).
Proof.
  intros f. unfold rne. fold f.
  destruct (Qcompare (q - inject_Z f) (1 / 2)) eqn:E.
  - apply Qeq_alt in E. destruct (Z.even f); [left | right]; split; try reflexivity;
      rewrite E; apply Qle_refl.
  - apply Qlt_alt in E. left. split; [reflexivity | apply Qlt_le_weak; exact E].
  - apply Qgt_alt in E. right. split; [reflexivity | apply Qlt_le_weak; exact E].
Qed.

Lemma rne_error (q : Q) : Qabs (inject_Z (rne q) - q) <= 1 / 2.
Proof.
  pose proof (Qfloor_le q) as Hlo. pose proof (Qlt_floor q) as Hhi.
  rewrite inject_Z_plus in Hhi. change (inject_Z 1) with 1 in Hhi.
  apply Qabs_Qle_condition.
  destruct (rne_cases q) as [[-> H] | [-> H]].
  - unfold Qdiv in *. change (/ 2) with (1 # 2) in *. lra.
  - rewrite inject_Z_plus. change (inject_Z 1) with 1.
    unfold Qdiv in *. change (/ 2) with (1 # 2) in *. lra.
Qed.

Lemma rne_Z (n : Z) : rne (inject_Z n) = n.
Proof.
  unfold rne. rewrite Qfloor_Z.
  assert (E : Qcompare (inject_Z n - inject_Z n) (1 / 2) = Lt).
  { apply (proj1 (Qlt_alt _ _)). unfold Qdiv. change (/ 2) with (1 # 2). lra. }
  rewrite E. reflexivity.
Qed.

Lemma rne_comp (x y : Q) : x == y -> rne x = rne y.
Proof.
  intros H. unfold rne. rewrite (Qfloor_comp x y H).
  assert (E : Qcompare (x - inject_Z (Qfloor y)) (1 / 2)
              = Qcompare (y - inject_Z (Qfloor y)) (1 / 2)).
  { apply Qcompare_comp; [rewrite H |]; reflexivity. }
  rewrite E. reflexivity.
Qed.

Lemma rne_mono (x y : Q) : x <= y -> (rne x <= rne y)%Z.
Proof.
  intros Hxy.
  pose proof (Qfloor_resp_le x y Hxy) as Hf.
  destruct (Z.eq_dec (Qfloor x) (Qfloor y)) as [Heq | Hne].
  - unfold rne. rewrite <- Heq.
    destruct (Qcompare (x - inject_Z (Qfloor x)) (1 / 2)) eqn:Ex;
      destruct (Qcompare (y - inject_Z (Qfloor x)) (1 / 2)) eqn:Ey;
      try (destruct (Z.even (Qfloor x))); try lia;
      repeat match goal with
             | H : Qcompare _ _ = Eq |- _ => apply Qeq_alt in H
             | H : Qcompare _ _ = Lt |- _ => apply Qlt_alt in H
             | H : Qcompare _ _ = Gt |- _ => apply Qgt_alt in H
             end;
      exfalso; unfold Qdiv in *; change (/ 2) with (1 # 2) in *; lra.
  - destruct (rne_cases x) as [[-> _] | [-> _]];
      destruct (rne_cases y) as [[-> _] | [-> _]]; lia.
Qed.

Lemma rne_nonneg (q : Q) : 0 <= q -> (0 <= rne q)%Z.
Proof. intros H. rewrite <- (rne_Z 0). by apply rne_mono. Qed.

Lemma round64_eq (q : Q) :
  round64 q ==
  (if Qle_bool 0 q then 1 else -1)
  * (inject_Z (rne (Qabs q / pow2 (ulp_exp q))) * pow2 (ulp_exp q)).
Proof.
  unfold round64. rewrite Qred_correct.
  destruct (Qle_bool 0 q); ring.
Qed.

Lemma round64_pos (q : Q) :
  0 <= q -> round64 q == inject_Z (rne (q / pow2 (ulp_exp q))) * pow2 (ulp_exp q).
Proof.
  intros H. rewrite round64_eq.
  assert (E : Qle_bool 0 q = true) by (by apply Qle_bool_iff).
  rewrite E. rewrite (rne_comp (Qabs q / pow2 (ulp_exp q)) (q / pow2 (ulp_exp q))).
  - ring.
  - rewrite (Qabs_pos q H). reflexivity.
Qed.

Lemma ulp_exp_opp (q : Q) : ulp_exp (- q) = ulp_exp q.
Proof.
  unfold ulp_exp. f_equal. f_equal.
  destruct (Qlt_le_dec 0 (Qabs q)) as [Hp | Hz].
  - destruct (ilog2_spec (Qabs q) Hp) as [Hl Hh].
    apply ilog2_unique; rewrite Qabs_opp; assumption.
  - assert (H0 : Qabs q == 0) by (pose proof (Qabs_nonneg q); lra).
    destruct q as [n d]. unfold Qabs, Qeq in H0. simpl in H0.
    assert (n = 0%Z) by lia. subst n. reflexivity.
Qed.

Lemma round64_opp (q : Q) : round64 (- q) == - round64 q.
Proof.
  rewrite !round64_eq, ulp_exp_opp.
  rewrite (rne_comp (Qabs (- q) / pow2 (ulp_exp q)) (Qabs q / pow2 (ulp_exp q)))
    by (rewrite Qabs_opp; reflexivity).
  destruct (Qle_bool 0 q) eqn:E1; destruct (Qle_bool 0 (- q)) eqn:E2; try ring.
  - apply Qle_bool_iff in E1. apply Qle_bool_iff in E2.
    assert (H0 : q == 0) by lra.
    rewrite (rne_comp (Qabs q / pow2 (ulp_exp q)) (inject_Z 0)).
    + rewrite rne_Z. ring.
    + assert (Ha : Qabs q == 0) by (rewrite H0; reflexivity).
      unfold Qdiv. rewrite Ha. change (inject_Z 0) with 0. ring.
  - exfalso.
    destruct (Qlt_le_dec q 0) as [Hn | Hp].
    + assert (H : 0 <= - q) by lra. apply Qle_bool_iff in H. congruence.
    + apply Qle_bool_iff in Hp. congruence.
Qed.

Lemma round64_nonneg (q : Q) : 0 <= q -> 0 <= round64 q.
Proof.
  intros H. rewrite (round64_pos q H).
  apply Qmult_le_0_compat; [| apply Qlt_le_weak, pow2_pos].
  change 0 with (inject_Z 0). rewrite <- Zle_Qle. apply rne_nonneg.
  apply Qle_shift_div_l; [apply pow2_pos | lra].
Qed.

Lemma ilog2_comp (x y : Q) : 0 < x -> x == y -> ilog2 x = ilog2 y.
Proof.
  intros Hx Hxy. destruct (ilog2_spec x Hx) as [Hl Hh].
  symmetry. apply ilog2_unique; rewrite <- Hxy; assumption.
Qed.

Lemma ulp_exp_pos (q : Q) :
  0 < q -> ulp_exp q = Z.max (ilog2 q - 52) (-1074).
Proof.
  intros Hq. unfold ulp_exp. f_equal. f_equal.
  apply ilog2_comp; [| apply Qabs_pos; lra].
  rewrite Qabs_pos; lra.
Qed.

Lemma div_pow2 (a b : Z) : pow2 a / pow2 b == pow2 (a - b).
Proof. unfold pow2. rewrite Qpower_minus by discriminate. reflexivity. Qed.

(** Rounding does not cross a power of two that the grid contains. *)
Lemma round64_le_pow2 (x : Q) (b : Z) :
  0 <= x -> x <= pow2 b -> (ulp_exp x <= b)%Z -> round64 x <= pow2 b.
Proof.
  intros H0 Hx Hc. rewrite (round64_pos x H0).
  set (c := ulp_exp x) in *.
  pose proof (pow2_pos c) as Hpc.
  assert (Hgrid : pow2 b / pow2 c == inject_Z (2 ^ (b - c))).
  { rewrite div_pow2. apply pow2_Z. lia. }
  assert (Hr : (rne (x / pow2 c) <= 2 ^ (b - c))%Z).
  { rewrite <- (rne_Z (2 ^ (b - c))).
    apply rne_mono. rewrite <- Hgrid.
    apply Qmult_le_compat_r; [exact Hx |]. apply Qinv_le_0_compat. lra. }
  rewrite Zle_Qle in Hr.
  apply Qle_trans with (inject_Z (2 ^ (b - c)) * pow2 c).
  - apply Qmult_le_compat_r; [exact Hr | lra].
  - rewrite <- Hgrid. field_simplify; [lra | lra].
Qed.

Lemma round64_ge_pow2 (y : Q) (b : Z) :
  pow2 b <= y -> (ulp_exp y <= b)%Z -> pow2 b <= round64 y.
Proof.
  intros Hy Hc.
  assert (H0 : 0 <= y) by (pose proof (pow2_pos b); lra).
  rewrite (round64_pos y H0).
  set (c := ulp_exp y) in *.
  pose proof (pow2_pos c) as Hpc.
  assert (Hgrid : pow2 b / pow2 c == inject_Z (2 ^ (b - c))).
  { rewrite div_pow2. apply pow2_Z. lia. }
  assert (Hr : (2 ^ (b - c) <= rne (y / pow2 c))%Z).
  { rewrite <- (rne_Z (2 ^ (b - c))) at 1.
    apply rne_mono. rewrite <- Hgrid.
    apply Qmult_le_compat_r; [exact Hy |]. apply Qinv_le_0_compat. lra. }
  rewrite Zle_Qle in Hr.
  apply Qle_trans with (inject_Z (2 ^ (b - c)) * pow2 c).
  - rewrite <- Hgrid. field_simplify; [lra | lra].
  - apply Qmult_le_compat_r; [exact Hr | lra].
Qed.

Lemma round64_mono_pos (x y : Q) :
  0 < x -> x <= y -> round64 x <= round64 y.
Proof.
  intros Hx Hxy.
  assert (Hy : 0 < y) by lra.
  pose proof (ilog2_mono x y Hx Hxy) as He.
  destruct (ilog2_spec x Hx) as [Hxl Hxh].
  destruct (ilog2_spec y Hy) as [Hyl Hyh].
  pose proof (ulp_exp_pos x Hx) as Hcx. pose proof (ulp_exp_pos y Hy) as Hcy.
  destruct (Z.eq_dec (ulp_exp x) (ulp_exp y)) as [Heq | Hne].
  - rewrite (round64_pos x), (round64_pos y) by lra. rewrite Heq.
    pose proof (pow2_pos (ulp_exp y)) as Hp.
    apply Qmult_le_compat_r; [| lra].
    rewrite <- Zle_Qle. apply rne_mono.
    apply Qmult_le_compat_r; [exact Hxy |]. apply Qinv_le_0_compat. lra.
  - assert (Hlt : (ilog2 x < ilog2 y)%Z) by lia.
    apply Qle_trans with (pow2 (ilog2 y)).
    + apply round64_le_pow2; [lra | | lia].
      apply Qle_trans with (pow2 (ilog2 x + 1)); [lra | apply pow2_le; lia].
    + apply round64_ge_pow2; [exact Hyl | lia].
Qed.

Lemma round64_0 (q : Q) : q == 0 -> round64 q == 0.
Proof.
  intros H. rewrite round64_eq.
  assert (Ha : Qabs q == 0) by (rewrite H; reflexivity).
  rewrite (rne_comp (Qabs q / pow2 (ulp_exp q)) (inject_Z 0)).
  - rewrite rne_Z. change (inject_Z 0) with 0. ring.
  - unfold Qdiv. rewrite Ha. change (inject_Z 0) with 0. ring.
Qed.

Lemma round64_nonpos (q : Q) : q <= 0 -> round64 q <= 0.
Proof.
  intros H. assert (Hn : 0 <= - q) by lra.
  pose proof (round64_nonneg (- q) Hn) as Hr.
  rewrite round64_opp in Hr. lra.
Qed.

(** Rounding to the nearest double keeps the order. *)
Lemma round64_mono (x y : Q) : x <= y -> round64 x <= round64 y.
Proof.
  intros Hxy.
  destruct (Qlt_le_dec 0 x) as [Hx | Hx].
  - by apply round64_mono_pos.
  - destruct (Qlt_le_dec y 0) as [Hy | Hy].
    + assert (H : round64 (- y) <= round64 (- x))
        by (apply round64_mono_pos; lra).
      rewrite !round64_opp in H. lra.
    + pose proof (round64_nonpos x Hx). pose proof (round64_nonneg y Hy). lra.
Qed.

(** In the normal range the relative error is at most 2^-53. *)
Lemma round64_error (q : Q) :
  pow2 (-1022) <= Qabs q -> Qabs (round64 q - q) <= pow2 (-53) * Qabs q.
Proof.
  assert (Hpos : forall x, pow2 (-1022) <= x ->
                   Qabs (round64 x - x) <= pow2 (-53) * x).
  { intros x Hx.
    assert (H0 : 0 < x) by (pose proof (pow2_pos (-1022)); lra).
    destruct (ilog2_spec x H0) as [Hl Hh].
    assert (He : (-1022 <= ilog2 x)%Z).
    { assert (H : (-1022 < ilog2 x + 1)%Z) by (apply pow2_lt_inv; lra). lia. }
    assert (Hc : ulp_exp x = (ilog2 x - 52)%Z) by (rewrite ulp_exp_pos by exact H0; lia).
    rewrite (round64_pos x) by lra. rewrite Hc.
    set (c := (ilog2 x - 52)%Z). pose proof (pow2_pos c) as Hpc.
    pose proof (rne_error (x / pow2 c)) as Herr.
    set (n := inject_Z (rne (x / pow2 c))) in *.
    assert (E : n * pow2 c - x == (n - x / pow2 c) * pow2 c)
      by (field; lra).
    rewrite E, Qabs_Qmult, (Qabs_pos (pow2 c)) by lra.
    apply Qle_trans with ((1 / 2) * pow2 c).
    - apply Qmult_le_compat_r; [exact Herr | lra].
    - assert (E2 : (1 / 2) * pow2 c == pow2 (-53) * pow2 (ilog2 x)).
      { rewrite <- pow2_add. unfold c.
        replace (-53 + ilog2 x)%Z with (-1 + (ilog2 x - 52))%Z by lia.
        rewrite pow2_add. reflexivity. }
      rewrite E2. apply Qmult_le_l; [apply pow2_pos | exact Hl]. }
  intros Hq. destruct (Qlt_le_dec q 0) as [Hn | Hp].
  - rewrite (Qabs_neg q) in * by lra.
    specialize (Hpos (- q) Hq). rewrite round64_opp in Hpos.
    assert (E : - round64 q - - q == - (round64 q - q)) by ring.
    rewrite E, Qabs_opp in Hpos. exact Hpos.
  - rewrite (Qabs_pos q) in * by lra. by apply Hpos.
Qed.

(** ** Cardinal direction: theorems *)

(** C2. On every azimuth of [0, 360] the code's nine-entry lookup agrees
    with the specification's [round (azimuth / 45) mod 8] lookup in the
    eight-point table, the result is one of the eight compass points, and
    both 0 and 360 give N. *)
Theorem convertCardinal_refines_spec (azimuth : Q) :
  0 <= azimuth -> azimuth <= 360 ->
  _convertCardinal azimuth = cardinalDirection_spec azimuth
  /\ (exists p, _convertCardinal azimuth = Some p /\ p ∈ compassTable)
  /\ _convertCardinal 0 = Some "N"%string
  /\ _convertCardinal 360 = Some "N"%string.
Proof.
  intros H0 H360.
  assert (Hk : (0 <= Math_round (azimuth / 45) < 9)%Z).
  { apply Math_round_bounds; qsolve. }
  unfold _convertCardinal, cardinalDirection_spec.
  set (k := Math_round (azimuth / 45)) in *.
  assert (Hcases : k = 0%Z \/ k = 1%Z \/ k = 2%Z \/ k = 3%Z \/ k = 4%Z
                   \/ k = 5%Z \/ k = 6%Z \/ k = 7%Z \/ k = 8%Z) by lia.
  split; [| split; [| split; reflexivity]].
  - destruct Hcases as [-> | [-> | [-> | [-> | [-> | [-> | [-> | [-> | ->]]]]]]]];
      reflexivity.
  - destruct Hcases as [-> | [-> | [-> | [-> | [-> | [-> | [-> | [-> | ->]]]]]]]];
      (eexists; split; [reflexivity | apply list_elem_of_In; simpl; tauto]).
Qed.

Lemma convertCardinal_refines_spec_witness :
  0 <= 100 /\ 100 <= 360 /\ _convertCardinal 100 = Some "E"%string.
Proof.
  split; [lra |]. split; [lra |].
  destruct (convertCardinal_refines_spec 100) as [H _]; [lra | lra |].
  rewrite H. reflexivity.
Defined.

(** C3.  The claim as stated fails on the first half: 44 degrees lies in the
    NE bucket, not in the N bucket. *)
Lemma convertCardinal_44_is_not_N :
  _convertCardinal 44 = Some "NE"%string
  /\ _convertCardinal 44 <> Some "N"%string.
Proof. split; [reflexivity | discriminate]. Qed.

(** C3 (amended).  44 and 46 degrees both give NE; the boundary between N
    and NE lies at 22.5 degrees: every azimuth of [-22.5, 22.5) gives N and
    every azimuth of [22.5, 67.5) gives NE. *)
Theorem convertCardinal_bucket_N_NE :
  _convertCardinal 44 = Some "NE"%string
  /\ _convertCardinal 46 = Some "NE"%string
  /\ (forall d : Q, -22.5 <= d -> d < 22.5 -> _convertCardinal d = Some "N"%string)
  /\ (forall d : Q, 22.5 <= d -> d < 67.5 -> _convertCardinal d = Some "NE"%string).
Proof.
  split; [reflexivity |]. split; [reflexivity |]. split.
  - intros d Hlo Hhi. unfold _convertCardinal.
    assert (Hk : (0 <= Math_round (d / 45) < 1)%Z)
      by (apply Math_round_bounds; qsolve).
    replace (Math_round (d / 45)) with 0%Z by lia. reflexivity.
  - intros d Hlo Hhi. unfold _convertCardinal.
    assert (Hk : (1 <= Math_round (d / 45) < 2)%Z)
      by (apply Math_round_bounds; qsolve).
    replace (Math_round (d / 45)) with 1%Z by lia. reflexivity.
Qed.

Lemma convertCardinal_bucket_N_NE_witness :
  _convertCardinal 22 = Some "N"%string /\ _convertCardinal 23 = Some "NE"%string.
Proof.
  destruct convertCardinal_bucket_N_NE as (_ & _ & HN & HNE).
  split; [apply HN | apply HNE]; lra.
Defined.

(** C10.  The table has nine entries with N at both ends and the index is
    used as it is: the lookup yields no compass point exactly on the
    azimuths of at least 382.5 degrees and on those below -22.5 degrees. *)
Theorem convertCardinal_partial (degrees : Q) :
  length cardinalPoints = 9%nat
  /\ cardinalPoints !! 0%nat = Some "N"%string
  /\ cardinalPoints !! 8%nat = Some "N"%string
  /\ (_convertCardinal degrees = None <-> 382.5 <= degrees \/ degrees < -22.5).
Proof.
  split; [reflexivity |]. split; [reflexivity |]. split; [reflexivity |].
  unfold _convertCardinal, array_get.
  destruct (Qlt_le_dec degrees (-22.5)) as [Hneg | Hlo].
  - assert (Hk : (Math_round (degrees / 45) < 0)%Z).
    { unfold Math_round. pose proof (Qfloor_le (degrees / 45 + 1 / 2)) as Hf.
      apply Z.lt_nge. intros Hc. rewrite Zle_Qle in Hc. qsolve. }
    apply Z.ltb_lt in Hk. rewrite Hk. split; [right; exact Hneg | reflexivity].
  - destruct (Qlt_le_dec degrees 382.5) as [Hin | Hbig].
    + assert (Hk : (0 <= Math_round (degrees / 45) < 9)%Z)
        by (apply Math_round_bounds; qsolve).
      set (k := Math_round (degrees / 45)) in *.
      assert (Hcases : k = 0%Z \/ k = 1%Z \/ k = 2%Z \/ k = 3%Z \/ k = 4%Z
                       \/ k = 5%Z \/ k = 6%Z \/ k = 7%Z \/ k = 8%Z) by lia.
      split.
      * destruct Hcases as [-> | [-> | [-> | [-> | [-> | [-> | [-> | [-> | ->]]]]]]]];
          discriminate.
      * intros [H | H]; lra.
    + assert (Hk : (9 <= Math_round (degrees / 45))%Z).
      { unfold Math_round. rewrite <- (Qfloor_Z 9).
        apply Qfloor_resp_le. qsolve. }
      assert (Hge : (Math_round (degrees / 45) <? 0)%Z = false)
        by (apply Z.ltb_ge; lia).
      rewrite Hge. split; [left; exact Hbig |].
      intros _. apply lookup_ge_None. simpl. lia.
Qed.

Lemma convertCardinal_partial_witness :
  _convertCardinal 400 = None /\ _convertCardinal (-30) = None.
Proof.
  split.
  - apply (convertCardinal_partial 400). left. lra.
  - apply (convertCardinal_partial (-30)). right. lra.
Defined.

(** ** Image selection: theorems *)

Lemma fl_finite (q : Q) :
  - overflow < q -> q < overflow -> fl q = Num (round64 q).
Proof.
  intros Hlo Hhi. unfold fl.
  destruct (Qle_bool overflow q) eqn:E1.
  - apply Qle_bool_iff in E1. lra.
  - destruct (Qle_bool q (- overflow)) eqn:E2; [| reflexivity].
    apply Qle_bool_iff in E2. lra.
Qed.

(** From a double [a] on, a result is an infinity or a double from [a] on. *)
Lemma fl_from (a q : Q) :
  round64 a == a -> - overflow < a -> a <= q ->
  fl q = Infinity \/ exists d : Q, fl q = Num d /\ a <= d.
Proof.
  intros Ha Hlo Hq. unfold fl.
  destruct (Qle_bool overflow q) eqn:E1; [by left |]. right.
  destruct (Qle_bool q (- overflow)) eqn:E2.
  - apply Qle_bool_iff in E2. lra.
  - eexists. split; [reflexivity |]. rewrite <- Ha. by apply round64_mono.
Qed.

Lemma fl_upto (a q : Q) :
  round64 a == a -> a < overflow -> q <= a ->
  fl q = NegInfinity \/ exists d : Q, fl q = Num d /\ d <= a.
Proof.
  intros Ha Hhi Hq. unfold fl.
  destruct (Qle_bool overflow q) eqn:E1.
  - apply Qle_bool_iff in E1. lra.
  - destruct (Qle_bool q (- overflow)) eqn:E2; [by left |]. right.
    eexists. split; [reflexivity |]. rewrite <- Ha. by apply round64_mono.
Qed.

(** The product on the double nearest to 0.03225806451612903, just below
    1/31, rounds up to 1: index 1, where the exact product would floor
    to 0. *)
Example double_product_rounds_up :
  fl (round64 0.03225806451612903 * 31) = Num 1
  /\ Qfloor (round64 0.03225806451612903 * 31) = 0%Z.
Proof. split; vm_compute; reflexivity. Qed.

(** C4.  For a phase value of [0, 1) the product [phaseValue * 31] is a
    double between 0 and 31, the phase index is the floor of that double
    [mod 31], it lies in [0, 30], the picture is the entry of [MOON_IMAGES]
    at that index, and with the 31 images in place there is one. *)
Theorem phaseIndex_in_range (ext : Externals) (this : Moon ext) :
  let phaseValue :=
    IIllumination.phaseValue (IMoonData.illumination (_moonData ext this)) in
  0 <= phaseValue -> phaseValue < 1 ->
  exists (product : Q) (k : Z),
    fl (phaseValue * 31) = Num product
    /\ phaseIndex ext this = Some k
    /\ k = (Qfloor product mod 31)%Z
    /\ (0 <= k <= 30)%Z
    /\ MoonImage.moonPic (moonImage ext this) = MOON_IMAGES ext !! Z.to_nat k
    /\ (length (MOON_IMAGES ext) = 31%nat ->
        is_Some (MoonImage.moonPic (moonImage ext this))).
Proof.
  intros phaseValue H0 H1.
  assert (Hov : 32 < overflow) by reflexivity.
  assert (Hfl : fl (phaseValue * 31) = Num (round64 (phaseValue * 31))).
  { apply fl_finite; lra. }
  set (product := round64 (phaseValue * 31)) in *.
  assert (Hlo : 0 <= product) by (apply round64_nonneg; lra).
  assert (Hhi : product <= 31).
  { assert (E : round64 31 == 31) by reflexivity.
    rewrite <- E. apply round64_mono. lra. }
  assert (Hf : (0 <= Qfloor product <= 31)%Z).
  { split.
    - rewrite <- (Qfloor_Z 0). by apply Qfloor_resp_le.
    - rewrite <- (Qfloor_Z 31). by apply Qfloor_resp_le. }
  assert (Hidx : phaseIndex ext this = Some (Qfloor product mod 31)%Z).
  { unfold phaseIndex. fold phaseValue. rewrite Hfl.
    unfold rem, Math_floor. rewrite Z.rem_mod_nonneg by lia. reflexivity. }
  pose proof (Z.mod_pos_bound (Qfloor product) 31 eq_refl) as Hk.
  assert (Hpic : MoonImage.moonPic (moonImage ext this)
                 = MOON_IMAGES ext !! Z.to_nat (Qfloor product mod 31)).
  { unfold moonImage. cbn [MoonImage.moonPic]. rewrite Hidx. unfold array_get.
    assert (Hnn : (Qfloor product mod 31 <? 0)%Z = false)
      by (apply Z.ltb_ge; lia).
    rewrite Hnn. reflexivity. }
  exists product, (Qfloor product mod 31)%Z.
  split; [exact Hfl |]. split; [exact Hidx |]. split; [reflexivity |].
  split; [lia |]. split; [exact Hpic |].
  intros Hlen. rewrite Hpic. apply lookup_lt_is_Some. lia.
Qed.

Lemma phaseIndex_in_range_witness :
  phaseIndex (Sample.host Sample.utc None 1)
    (Sample.moon Sample.utc None 1 "en" None) = Some 20%Z
  /\ MoonImage.moonPic
       (moonImage (Sample.host Sample.utc None 1)
          (Sample.moon Sample.utc None 1 "en" None)) = Some "moon-20"%string.
Proof.
  destruct (phaseIndex_in_range (Sample.host Sample.utc None 1)
              (Sample.moon Sample.utc None 1 "en" None))
    as (product & k & Hfl & Hidx & Hk & _ & Hpic & _).
  - vm_compute. discriminate.
  - vm_compute. reflexivity.
  - assert (Hp : product = round64 (0.65 * 31)).
    { vm_compute in Hfl. injection Hfl as <-. vm_compute. reflexivity. }
    assert (Hk20 : k = 20%Z) by (rewrite Hk, Hp; vm_compute; reflexivity).
    split; [rewrite Hidx, Hk20; reflexivity |].
    rewrite Hpic, Hk20. reflexivity.
Defined.

(** [180 / Math.PI] is the double 57.29577951308232. *)
Lemma fdiv_180_PI : fdiv 180 Math_PI = Num (1007958012753983 # 17592186044416).
Proof. vm_compute. reflexivity. Qed.

(** The product of a number in the normal range with [180 / Math.PI]:
    two roundings, and the rounding of the constant. *)
Lemma rotation_close (D : Q) :
  pow2 (-1022) <= Qabs D -> Qabs D <= pow2 1000 ->
  exists r : Q,
    num_mul (fl D) (fdiv 180 Math_PI) = Num r
    /\ Qabs (r - D * 180 / Math_PI) <= pow2 (-51) * Qabs (D * 180 / Math_PI).
Proof.
  intros Hlo Hhi. rewrite fdiv_180_PI.
  set (c := 1007958012753983 # 17592186044416).
  pose proof (pow2_pos (-1022)) as HP.
  assert (Hov : (1 + pow2 (-53)) * c * pow2 1000 < overflow) by reflexivity.
  assert (Hov2 : pow2 1000 < overflow) by reflexivity.
  assert (Hc : Qabs (c - 180 / Math_PI) <= pow2 (-53) * (180 / Math_PI))
    by (vm_compute; discriminate).
  apply Qabs_Qle_condition in Hc.
  pose proof (round64_error D Hlo) as He1.
  apply Qabs_Qle_condition in He1.
  assert (Hfl : fl D = Num (round64 D)).
  { apply fl_finite; apply Qabs_Qle_condition in Hhi; lra. }
  rewrite Hfl. cbn [num_mul].
  set (d := round64 D) in *.
  assert (Hx : pow2 (-1022) <= Qabs (d * c)).
  { rewrite Qabs_Qmult, (Qabs_pos c) by discriminate.
    unfold c, pow2 in *. change (2 ^ (-53)) with (1 # 9007199254740992) in *.
    destruct (Qlt_le_dec D 0) as [Hn | Hp].
    - rewrite (Qabs_neg D) in * by lra. rewrite (Qabs_neg d) by lra. lra.
    - rewrite (Qabs_pos D) in * by lra. rewrite (Qabs_pos d) by lra. lra. }
  pose proof (round64_error (d * c) Hx) as He2.
  assert (Hfl2 : fl (d * c) = Num (round64 (d * c))).
  { unfold c, pow2 in *. change (2 ^ (-53)) with (1 # 9007199254740992) in *.
    apply fl_finite;
      (destruct (Qlt_le_dec D 0) as [Hn | Hp];
       [rewrite (Qabs_neg D) in * by lra | rewrite (Qabs_pos D) in * by lra];
       lra). }
  exists (round64 (d * c)). split; [exact Hfl2 |].
  set (r := round64 (d * c)) in *.
  unfold c, pow2, Math_PI in *.
  change (2 ^ (-53)) with (1 # 9007199254740992) in *.
  change (2 ^ (-51)) with (1 # 2251799813685248).
  qdiv.
  destruct (Qlt_le_dec D 0) as [Hn | Hp].
  - rewrite (Qabs_neg D) in * by lra.
    rewrite (Qabs_neg (d * _)) in He2 by lra.
    rewrite (Qabs_neg (D * _ * _)) by lra.
    apply Qabs_Qle_condition in He2. apply Qabs_Qle_condition. lra.
  - rewrite (Qabs_pos D) in * by lra.
    rewrite (Qabs_pos (d * _)) in He2 by lra.
    rewrite (Qabs_pos (D * _ * _)) by lra.
    apply Qabs_Qle_condition in He2. apply Qabs_Qle_condition. lra.
Qed.

(** An angle of 361 degrees or more comes out above 360 degrees. *)
Lemma rotation_above (D : Q) :
  361 <= D * 180 / Math_PI ->
  num_mul (fl D) (fdiv 180 Math_PI) = Infinity
  \/ exists r : Q, num_mul (fl D) (fdiv 180 Math_PI) = Num r /\ 360 < r.
Proof.
  intros H. rewrite fdiv_180_PI.
  set (c := 1007958012753983 # 17592186044416).
  assert (HD : 403 / 64 <= D) by (unfold Math_PI in H; qsolve).
  destruct (fl_from (403 / 64) D) as [-> | (d & -> & Hd)];
    [reflexivity | reflexivity | exact HD | by left |].
  cbn [num_mul].
  destruct (fl_from (721 / 2) (d * c)) as [-> | (r & -> & Hr)];
    [reflexivity | reflexivity | unfold c; qsolve | by left |].
  right. exists r. split; [reflexivity | qsolve].
Qed.

Lemma rotation_below (D : Q) :
  D * 180 / Math_PI <= -361 ->
  num_mul (fl D) (fdiv 180 Math_PI) = NegInfinity
  \/ exists r : Q, num_mul (fl D) (fdiv 180 Math_PI) = Num r /\ r < -360.
Proof.
  intros H. rewrite fdiv_180_PI.
  set (c := 1007958012753983 # 17592186044416).
  assert (HD : D <= - (403 / 64)) by (unfold Math_PI in H; qsolve).
  destruct (fl_upto (- (403 / 64)) D) as [-> | (d & -> & Hd)];
    [reflexivity | reflexivity | exact HD | by left |].
  cbn [num_mul].
  destruct (fl_upto (- (721 / 2)) (d * c)) as [-> | (r & -> & Hr)];
    [reflexivity | reflexivity | unfold c; qsolve | by left |].
  right. exists r. split; [reflexivity | qsolve].
Qed.

(** C5.  For every sample the image is the one at index
    [Math.floor (phaseValue * 31) % 31], the product being a double (on a
    phase value that is not negative [%] is the mathematical [mod]), and
    the rotation is the double [(zenithAngle - parallacticAngle) *
    (180 / Math.PI)], which [_getMoonRotation] returns as well.  In the
    normal range of doubles it is within [2^-51] of the angle, relatively,
    whatever the size of the angle: nothing is clamped, and an angle beyond
    361 degrees either way comes out beyond 360 degrees. *)
Theorem moonImage_selection (ext : Externals) (this : Moon ext) :
  let data := _moonData ext this in
  let phaseValue := IIllumination.phaseValue (IMoonData.illumination data) in
  let difference := IMoonData.zenithAngle data - IMoonData.parallacticAngle data in
  let angle := difference * 180 / Math_PI in
  let rotateDeg := MoonImage.rotateDeg (moonImage ext this) in
  MoonImage.moonPic (moonImage ext this)
    = match fl (phaseValue * 31) with
      | Num product => array_get (MOON_IMAGES ext) (rem (Math_floor product) 31)
      | _ => None
      end
  /\ (0 <= phaseValue -> phaseValue * 31 < overflow ->
      MoonImage.moonPic (moonImage ext this)
        = MOON_IMAGES ext
            !! Z.to_nat (Qfloor (round64 (phaseValue * 31)) mod 31))
  /\ rotateDeg = num_mul (fl difference) (fdiv 180 Math_PI)
  /\ _getMoonRotation ext this = rotateDeg
  /\ (pow2 (-1022) <= Qabs difference -> Qabs difference <= pow2 1000 ->
      exists r : Q,
        rotateDeg = Num r /\ Qabs (r - angle) <= pow2 (-51) * Qabs angle)
  /\ (361 <= angle ->
      rotateDeg = Infinity \/ exists r : Q, rotateDeg = Num r /\ 360 < r)
  /\ (angle <= -361 ->
      rotateDeg = NegInfinity \/ exists r : Q, rotateDeg = Num r /\ r < -360).
Proof.
  intros data phaseValue difference angle rotateDeg.
  assert (Hpic : MoonImage.moonPic (moonImage ext this)
                 = match fl (phaseValue * 31) with
                   | Num product =>
                       array_get (MOON_IMAGES ext) (rem (Math_floor product) 31)
                   | _ => None
                   end).
  { unfold moonImage, phaseIndex. cbn [MoonImage.moonPic].
    fold data. fold phaseValue. by destruct (fl (phaseValue * 31)). }
  split; [exact Hpic |]. split; [| split; [reflexivity | split; [reflexivity |]]].
  - intros H0 H1. rewrite Hpic.
    assert (Hov : 0 < overflow) by reflexivity.
    rewrite fl_finite by lra.
    assert (Hk : (0 <= Qfloor (round64 (phaseValue * 31)))%Z).
    { rewrite <- (Qfloor_Z 0). apply Qfloor_resp_le. apply round64_nonneg. lra. }
    unfold rem, Math_floor. rewrite Z.rem_mod_nonneg by lia.
    unfold array_get.
    assert (Hnn : (Qfloor (round64 (phaseValue * 31)) mod 31 <? 0)%Z = false).
    { apply Z.ltb_ge. apply Z.mod_pos_bound. lia. }
    rewrite Hnn. reflexivity.
  - split; [| split].
    + intros Hlo Hhi. exact (rotation_close difference Hlo Hhi).
    + intros H. exact (rotation_above difference H).
    + intros H. exact (rotation_below difference H).
Qed.

Lemma moonImage_selection_witness :
  (exists r : Q,
     MoonImage.rotateDeg
       (moonImage (Sample.host Sample.utc None 7)
          (Sample.moon Sample.utc None 7 "en" None)) = Num r
     /\ 360 < r)
  /\ MoonImage.moonPic
       (moonImage (Sample.host Sample.utc None 7)
          (Sample.moon Sample.utc None 7 "en" None))
     = Some "moon-20"%string.
Proof.
  destruct (moonImage_selection (Sample.host Sample.utc None 7)
              (Sample.moon Sample.utc None 7 "en" None))
    as (_ & Hpic & _ & _ & _ & Hbig & _).
  split.
  - destruct Hbig as [Hinf | Hr]; [vm_compute; discriminate | | exact Hr].
    vm_compute in Hinf. discriminate.
  - rewrite Hpic; [vm_compute; reflexivity | vm_compute; discriminate
                   | vm_compute; reflexivity].
Defined.

(** ** Formatting of an item: theorems *)

Lemma existsb_eqb_elem_of (l : string) (ls : list string) :
  existsb (String.eqb l) ls = true <-> l ∈ ls.
Proof.
  rewrite existsb_exists. split.
  - intros (x & Hin & Heq). apply String.eqb_eq in Heq. subst x.
    by apply list_elem_of_In.
  - intros Hin. exists l. split; [by apply list_elem_of_In | apply String.eqb_refl].
Qed.

(** C8.  The claim as stated fails on the kind of space: for French the
    separator before the percent sign is the regular space U+0020, the one
    that precedes every other unit, and not a hair space. *)
Lemma blackBeforeUnit_fr_percent_is_regular_space :
  blackBeforeUnit (Sample.host Sample.utc None 1)
    (Sample.moon Sample.utc None 1 "fr" None) "%" = " "%string
  /\ blackBeforeUnit (Sample.host Sample.utc None 1)
       (Sample.moon Sample.utc None 1 "fr" None) "%" <> hair_space
  /\ blackBeforeUnit (Sample.host Sample.utc None 1)
       (Sample.moon Sample.utc None 1 "fr" None) "%"
     = blackBeforeUnit (Sample.host Sample.utc None 1)
         (Sample.moon Sample.utc None 1 "fr" None) "km"
  /\ MoonDataItem.value
       (MoonData.moonFraction
          (moonData (Sample.host Sample.utc None 1)
             (Sample.moon Sample.utc None 1 "fr" None))) = "80.00 %"%string.
Proof.
  split; [reflexivity |]. split; [discriminate |]. split; reflexivity.
Qed.

(** C8 (amended).  An item with a unit shows the value, the separator and
    the unit; the separator is empty before the degree sign, one regular
    space before the percent sign exactly for the languages cs, de, fi,
    fr, sk and sv and empty before it for every other language, and one
    regular space before any other unit. *)
Theorem blackBeforeUnit_separator (ext : Externals) (this : Moon ext)
    (label value unit : string) (secondValue : option string) :
  unit <> ""%string ->
  MoonDataItem.value (createItem ext this label value (Some unit) secondValue)
    = value +:+ (blackBeforeUnit ext this unit +:+ unit)
  /\ (unit = "°"%string -> blackBeforeUnit ext this unit = ""%string)
  /\ (unit = "%"%string ->
      (lang this ∈ spaced_percent_languages ->
       blackBeforeUnit ext this unit = " "%string)
      /\ (lang this ∉ spaced_percent_languages ->
          blackBeforeUnit ext this unit = ""%string))
  /\ (unit <> "°"%string -> unit <> "%"%string ->
      blackBeforeUnit ext this unit = " "%string).
Proof.
  intros Hunit. split; [| split; [| split]].
  - destruct unit as [| c u]; [congruence | reflexivity].
  - intros ->. reflexivity.
  - intros ->.
    change (blackBeforeUnit ext this "%")
      with (if existsb (String.eqb (lang this)) spaced_percent_languages
            then " "%string else ""%string).
    destruct (existsb (String.eqb (lang this)) spaced_percent_languages) eqn:E.
    + split; [reflexivity |]. intros Hnot. apply existsb_eqb_elem_of in E. tauto.
    + split; [| reflexivity]. intros Hin. apply existsb_eqb_elem_of in Hin.
      congruence.
  - intros Hdeg Hpct. unfold blackBeforeUnit.
    apply String.eqb_neq in Hdeg. apply String.eqb_neq in Hpct.
    rewrite Hdeg, Hpct. reflexivity.
Qed.

Lemma blackBeforeUnit_separator_witness :
  MoonDataItem.value
    (createItem (Sample.host Sample.utc None 1)
       (Sample.moon Sample.utc None 1 "en" None) "distance" "384400.00"
       (Some "km"%string) None) = "384400.00 km"%string.
Proof.
  destruct (blackBeforeUnit_separator (Sample.host Sample.utc None 1)
              (Sample.moon Sample.utc None 1 "en" None) "distance" "384400.00"
              "km" None) as (H & _).
  - discriminate.
  - rewrite H. reflexivity.
Defined.

(** ** The snapshot: theorems *)

(** On a valid time the call returns the item of [createMoonTime]. *)
Lemma createMoonTime_returns (ext : Externals) (host : InvalidTime)
    (this : Moon ext) (key : string) (t : Date) :
  Partial.createMoonTime ext host this key (Some t)
  = Normal (createMoonTime ext this key t).
Proof. reflexivity. Qed.

(** On [NaN] it throws: what [formatedTime] throws, or else the
    [RangeError] of [toISOString]. *)
Lemma createMoonTime_throws (ext : Externals) (host : InvalidTime)
    (this : Moon ext) (key : string) :
  exists e : exception,
    Partial.createMoonTime ext host this key None = Throw e
    /\ (forall s : string,
          formatedTime_NaN host (amPm this) (lang this) = Normal s ->
          e = RangeError).
Proof.
  unfold Partial.createMoonTime, Partial.formatTime.
  destruct (formatedTime_NaN host (amPm this) (lang this)) as [s | e].
  - exists RangeError. split; [reflexivity | by intros _ _].
  - exists e. split; [reflexivity | discriminate].
Qed.

(** With a rise and a set the getter returns the snapshot of [moonData]. *)
Lemma moonData_returns (ext : Externals) (host : InvalidTime) (this : Moon ext) :
  SunCalcTimes.valid (Partial._moonTime ext host this) = Some (_moonTime ext this) ->
  Partial.moonData ext host this = Normal (moonData ext this).
Proof.
  unfold SunCalcTimes.valid, Partial.moonData, moonData.
  destruct (SunCalcTimes.rise _) as [r |]; [| discriminate].
  destruct (SunCalcTimes.set _) as [s |]; [| discriminate].
  intros [= <-]. cbn [IMoonTimes.rise IMoonTimes.set IMoonTimes.highest].
  rewrite !createMoonTime_returns. cbn [bind].
  destruct (SunCalcTimes.highest _) as [h |]; reflexivity.
Qed.

(** C7.  The getter tests [highest] and leaves the transit item out when
    there is none, but only after it has built the rise and the set item:
    with a rise and a set the snapshot has the transit item exactly when
    SunCalc has a transit time; without a rise or without a set the getter
    throws and there is no snapshot.  As SunCalc has a transit time only
    when it has both a rise and a set, the getter throws whenever the
    transit time is missing. *)
Theorem moonData_transit_or_throw (ext : Externals) (host : InvalidTime)
    (this : Moon ext) :
  let times := Partial._moonTime ext host this in
  (forall r s : Date,
     SunCalcTimes.rise times = Some r -> SunCalcTimes.set times = Some s ->
     exists snapshot : MoonData.t,
       Partial.moonData ext host this = Normal snapshot
       /\ MoonData.moonHighest snapshot
          = createMoonTime ext this "moonHigh" <$> SunCalcTimes.highest times
       /\ (MoonData.moonHighest snapshot = None
           <-> SunCalcTimes.highest times = None))
  /\ (SunCalcTimes.rise times = None \/ SunCalcTimes.set times = None ->
      exists e : exception,
        Partial.moonData ext host this = Throw e
        /\ (forall s : string,
              formatedTime_NaN host (amPm this) (lang this) = Normal s ->
              e = RangeError))
  /\ (SunCalcTimes.highest_needs_rise_and_set times ->
      SunCalcTimes.highest times = None ->
      exists e : exception, Partial.moonData ext host this = Throw e).
Proof.
  intros times.
  assert (Hthrow : SunCalcTimes.rise times = None \/ SunCalcTimes.set times = None ->
                   exists e : exception,
                     Partial.moonData ext host this = Throw e
                     /\ (forall s : string,
                           formatedTime_NaN host (amPm this) (lang this) = Normal s ->
                           e = RangeError)).
  { intros Hmiss. unfold Partial.moonData. fold times.
    destruct (SunCalcTimes.rise times) as [r |].
    - destruct Hmiss as [Hr | Hs]; [discriminate |]. rewrite Hs.
      rewrite createMoonTime_returns. cbn [bind].
      destruct (createMoonTime_throws ext host this "moonSet") as (e & He & Hrange).
      rewrite He. exists e. split; [reflexivity | exact Hrange].
    - destruct (createMoonTime_throws ext host this "moonRise") as (e & He & Hrange).
      rewrite He. exists e. split; [reflexivity | exact Hrange]. }
  split; [| split; [exact Hthrow |]].
  - intros r s Hr Hs. unfold Partial.moonData. fold times. rewrite Hr, Hs.
    rewrite !createMoonTime_returns. cbn [bind].
    destruct (SunCalcTimes.highest times) as [h |].
    + rewrite createMoonTime_returns. cbn [bind].
      eexists. split; [reflexivity |]. cbn [MoonData.moonHighest].
      split; [reflexivity | split; discriminate].
    + eexists. split; [reflexivity |]. cbn [MoonData.moonHighest].
      split; [reflexivity | split; reflexivity].
  - intros Hcontract Hnone.
    destruct (Hthrow) as (e & He & _); [| by exists e].
    destruct (SunCalcTimes.rise times) as [r |] eqn:Hr; [| by left].
    destruct (SunCalcTimes.set times) as [s |] eqn:Hs; [| by right].
    exfalso. destruct Hcontract as [_ Hboth].
    destruct Hboth as [h Hh]; [split; eauto |]. congruence.
Qed.

Lemma moonData_transit_or_throw_witness :
  Partial.moonData (Sample.host Sample.utc None 1) sample_no_rise
    (Sample.moon Sample.utc None 1 "en" None) = Throw RangeError
  /\ exists snapshot : MoonData.t,
       Partial.moonData (Sample.host Sample.utc None 1) sample_rise_and_set
         (Sample.moon Sample.utc None 1 "en" None) = Normal snapshot
       /\ MoonData.moonHighest snapshot
          = Some {| MoonDataItem.label := "card.moonHigh";
                    MoonDataItem.value := "08:00";
                    MoonDataItem.secondValue := "card.relativeTime.today" |}.
Proof.
  destruct (moonData_transit_or_throw (Sample.host Sample.utc None 1)
              sample_no_rise (Sample.moon Sample.utc None 1 "en" None))
    as (_ & Hthrow & _).
  destruct (moonData_transit_or_throw (Sample.host Sample.utc None 1)
              sample_rise_and_set (Sample.moon Sample.utc None 1 "en" None))
    as (Hvalid & _ & _).
  split.
  - destruct Hthrow as (e & He & Hrange); [by left |].
    rewrite He. f_equal. by apply (Hrange "Invalid Date"%string).
  - destruct (Hvalid 1704117600000%Z 1704074400000%Z eq_refl eq_refl)
      as (snapshot & Hsnap & Hhigh & _).
    exists snapshot. split; [exact Hsnap |]. rewrite Hhigh. reflexivity.
Defined.

(** C9.  The conversion is [km * 0.621371] with miles and the identity
    without; it does not round (one kilometre is 0.621371 miles, six
    decimals), the two decimals come from [toFixed(2)] when [moonData]
    formats the converted distance; and 384400 km is within one mile of
    238855 miles. *)
Theorem convertKmToMiles_linear (ext : Externals) (this : Moon ext) (km : Q) :
  helpers_convertKmToMiles km true == km * 0.621371
  /\ helpers_convertKmToMiles km false = km
  /\ convertKmToMiles ext this km = helpers_convertKmToMiles km (useMiles this)
  /\ helpers_convertKmToMiles 1 true == 0.621371
  /\ formatted_distance ext this
     = formatNumber ext
         (toFixed (Number_toString ext)
            (helpers_convertKmToMiles (IMoonData.distance (_moonData ext this))
               (useMiles this)) 2)
         (locale this)
  /\ Qabs (helpers_convertKmToMiles 384400 true - 238855) <= 1.
Proof.
  split; [reflexivity |]. split; [reflexivity |]. split; [reflexivity |].
  split; [reflexivity |]. split; [reflexivity |].
  vm_compute. discriminate.
Qed.

(** ** A dictionary filled by a loop

    [result[key i] = val i] for each [i] of a list in turn, from the empty
    object: the shape of the loop of [_getAltituteData]. *)

Section Fill.

Context (key : Z -> string) (val : Z -> Q).

Local Abbreviation fill_from m l :=
  (foldl (fun (result : gmap string Q) (i : Z) => <[key i := val i]> result) m l).

Lemma fill_lookup_Some (l : list Z) (k : string) (v : Q) :
  fill_from ∅ l !! k = Some v -> exists i, i ∈ l /\ key i = k /\ val i = v.
Proof.
  induction l as [| x l IH] using rev_ind; simpl.
  - rewrite lookup_empty. discriminate.
  - rewrite foldl_snoc. destruct (decide (key x = k)) as [Heq | Hne].
    + rewrite <- Heq, lookup_insert_eq. intros [= <-].
      exists x. split; [apply elem_of_app; right; apply list_elem_of_here |].
      split; reflexivity.
    + rewrite lookup_insert_ne by exact Hne. intros Hv.
      destruct (IH Hv) as (i & Hi & Hk & Hvi).
      exists i. split; [apply elem_of_app; left; exact Hi | split; assumption].
Qed.

Lemma fill_lookup_elem (l : list Z) (i : Z) :
  i ∈ l -> is_Some (fill_from ∅ l !! key i).
Proof.
  induction l as [| x l IH] using rev_ind; intros Hi.
  - by apply not_elem_of_nil in Hi.
  - rewrite foldl_snoc. destruct (decide (key x = key i)) as [Heq | Hne].
    + rewrite <- Heq, lookup_insert_eq. eauto.
    + rewrite lookup_insert_ne by exact Hne. apply IH.
      apply elem_of_app in Hi as [Hi | Hi]; [exact Hi |].
      apply list_elem_of_singleton in Hi. congruence.
Qed.



Lemma fill_size_le (l : list Z) : (size (fill_from ∅ l) <= length l)%nat.
Proof.
  induction l as [| x l IH] using rev_ind; simpl.
  - rewrite map_size_empty. lia.
  - rewrite foldl_snoc, map_size_insert, length_app. simpl.
    destruct (_ !! key x); simpl; lia.
Qed.


End Fill.

(** The rounds of the loop. *)
Lemma elem_of_rounds (i : Z) (n : nat) :
  i ∈ Z.of_nat <$> seq 0 n <-> (0 <= i < Z.of_nat n)%Z.
Proof.
  rewrite list_elem_of_fmap. split.
  - intros (k & -> & Hk). apply elem_of_seq in Hk. lia.
  - intros Hi. exists (Z.to_nat i). split; [lia | apply elem_of_seq; lia].
Qed.



(** ** The altitude profile: theorems *)





(** [toFixed] on a few numbers, as a JavaScript engine prints them, and
    the double that [Number] reads back. *)
Example toFixed_examples :
  let print := toFixed (fun _ => "1e+21"%string) in
  print 3.14159 2%nat = "3.14"%string
  /\ print (-45.678) 2%nat = "-45.68"%string
  /\ print 0.005 2%nat = "0.01"%string
  /\ print (-0.001) 2%nat = "-0.00"%string
  /\ print 99.996 2%nat = "100.00"%string
  /\ print 2.5 0%nat = "3"%string
  /\ print 1e21 2%nat = "1e+21"%string
  /\ Number_toFixed (-45.678) 2 = round64 (-45.68)
  /\ Number_toFixed 0.125 2 = (1170935903116329 # 9007199254740992).
Proof. repeat split; vm_compute; reflexivity. Qed.

Lemma fixed_range_true (x : Q) : Qabs x < inject_Z (10 ^ 21) -> fixed_range x = true.
Proof.
  intros Hx. unfold fixed_range.
  destruct (Qle_bool (inject_Z (10 ^ 21)) (Qabs x)) eqn:E; [| reflexivity].
  apply Qle_bool_iff in E. exfalso. apply (Qlt_not_le _ _ Hx E).
Qed.

Lemma negative_true (x : Q) : negative x = true <-> x < 0.
Proof.
  unfold negative. destruct (Qle_bool 0 x) eqn:E; simpl.
  - apply Qle_bool_iff in E. split; [discriminate | lra].
  - split; [intros _ | reflexivity].
    destruct (Qlt_le_dec x 0) as [Hn | Hp]; [exact Hn |].
    apply Qle_bool_iff in Hp. congruence.
Qed.

Lemma scaled_nonneg (x : Q) : (0 <= scaled x 2)%Z.
Proof.
  unfold scaled. rewrite <- (Qfloor_Z 0). apply Qfloor_resp_le.
  change (inject_Z (10 ^ Z.of_nat 2)) with 100.
  pose proof (Qabs_nonneg x). qsolve.
Qed.

Lemma scaled_mono (x y : Q) : Qabs x <= Qabs y -> (scaled x 2 <= scaled y 2)%Z.
Proof.
  intros H. unfold scaled. apply Qfloor_resp_le.
  change (inject_Z (10 ^ Z.of_nat 2)) with 100. qsolve.
Qed.

(** The decimal number of [x.toFixed(2)] has two decimals and is within
    half a hundredth of [x]. *)
Lemma decimal_spec (x : Q) :
  exists n : Z,
    decimal x 2 == inject_Z n / 100 /\ Qabs (inject_Z n / 100 - x) <= 1 / 200.
Proof.
  unfold decimal, scaled. change (inject_Z (10 ^ Z.of_nat 2)) with 100.
  pose proof (Qfloor_le (Qabs x * 100 + 1 / 2)) as Hlo.
  pose proof (Qlt_floor (Qabs x * 100 + 1 / 2)) as Hhi.
  set (n := Qfloor (Qabs x * 100 + 1 / 2)) in *.
  rewrite inject_Z_plus in Hhi.
  destruct (negative x) eqn:E.
  - apply negative_true in E. pose proof (Qabs_neg x) as Ha.
    exists (- n)%Z. rewrite inject_Z_opp. split.
    + unfold Qdiv. ring.
    + apply Qabs_Qle_condition. rewrite Ha in * by lra. qsolve.
  - assert (Hp : 0 <= x).
    { destruct (Qlt_le_dec x 0) as [Hn | Hp]; [| exact Hp].
      apply negative_true in Hn. congruence. }
    pose proof (Qabs_pos x Hp) as Ha.
    exists n. split; [reflexivity |].
    apply Qabs_Qle_condition. rewrite Ha in *. qsolve.
Qed.

Lemma decimal_mono (x y : Q) : x <= y -> decimal x 2 <= decimal y 2.
Proof.
  intros Hxy. unfold decimal.
  change (inject_Z (10 ^ Z.of_nat 2)) with 100.
  pose proof (scaled_nonneg x) as Hnx. pose proof (scaled_nonneg y) as Hny.
  rewrite Zle_Qle in Hnx, Hny.
  destruct (negative x) eqn:Ex; destruct (negative y) eqn:Ey.
  - apply negative_true in Ex. apply negative_true in Ey.
    assert (Habs : Qabs y <= Qabs x).
    { rewrite (Qabs_neg x), (Qabs_neg y) by lra. lra. }
    pose proof (scaled_mono y x Habs) as Hm. rewrite Zle_Qle in Hm. qsolve.
  - qsolve.
  - apply negative_true in Ey.
    assert (Hpx : ~ x < 0) by (intros Hc; apply negative_true in Hc; congruence).
    lra.
  - assert (Hpx : ~ x < 0) by (intros Hc; apply negative_true in Hc; congruence).
    assert (Hpy : ~ y < 0) by (intros Hc; apply negative_true in Hc; congruence).
    assert (Habs : Qabs x <= Qabs y).
    { rewrite (Qabs_pos x), (Qabs_pos y) by lra. lra. }
    pose proof (scaled_mono x y Habs) as Hm. rewrite Zle_Qle in Hm. qsolve.
Qed.

(** Equal numbers round to equal doubles. *)
Lemma round64_comp (x y : Q) : x == y -> round64 x == round64 y.
Proof.
  intros Hxy.
  destruct (Qeq_dec x 0) as [Hz | Hnz].
  - rewrite (round64_0 x Hz), (round64_0 y); [reflexivity | by rewrite <- Hxy].
  - assert (Hax : 0 < Qabs x).
    { destruct (Qlt_le_dec 0 (Qabs x)) as [H | H]; [exact H |].
      exfalso. apply Hnz. apply Qabs_Qle_condition in H. lra. }
    assert (Habs : Qabs x == Qabs y) by (by rewrite Hxy).
    assert (Hc : ulp_exp x = ulp_exp y).
    { unfold ulp_exp. f_equal. f_equal. by apply ilog2_comp. }
    rewrite !round64_eq, Hc.
    rewrite (rne_comp (Qabs x / pow2 (ulp_exp y)) (Qabs y / pow2 (ulp_exp y)))
      by (by rewrite Habs).
    assert (Hs : Qle_bool 0 x = Qle_bool 0 y) by (by rewrite Hxy).
    rewrite Hs. reflexivity.
Qed.

(** [Number(x.toFixed(2))] is [x] rounded to two decimals, half away
    from zero, as long as [toFixed] prints fixed notation. *)
Lemma Number_toFixed_rounded (x : Q) :
  Qabs x < inject_Z (10 ^ 21) -> rounded_to_2_decimals x (Number_toFixed x 2).
Proof.
  intros Hx. unfold Number_toFixed. rewrite (fixed_range_true x Hx).
  destruct (decimal_spec x) as (n & Hn & Herr).
  exists n. split; [exact Herr | by apply round64_comp].
Qed.

(** Rounding to two decimals keeps the order. *)
Lemma Number_toFixed_mono (x y : Q) :
  Qabs x < inject_Z (10 ^ 21) -> Qabs y < inject_Z (10 ^ 21) -> x <= y ->
  Number_toFixed x 2 <= Number_toFixed y 2.
Proof.
  intros Hx Hy Hxy. unfold Number_toFixed.
  rewrite (fixed_range_true x Hx), (fixed_range_true y Hy).
  apply round64_mono. by apply decimal_mono.
Qed.

(** [Math.max] and [Math.min] of a list that is not empty. *)
Lemma foldl_num_max (l : list Q) (y : Q) :
  exists M : Q,
    foldl num_max (Num y) l = Num M
    /\ (M = y \/ M ∈ l) /\ y <= M /\ (forall v : Q, v ∈ l -> v <= M).
Proof.
  revert y. induction l as [| x l IH]; intros y; simpl.
  - exists y. split; [reflexivity |]. split; [by left |]. split; [lra |].
    intros v Hv. by apply not_elem_of_nil in Hv.
  - destruct (Qle_bool x y) eqn:E.
    + apply Qle_bool_iff in E. destruct (IH y) as (M & HM & Hin & Hy & Hall).
      exists M. split; [exact HM |]. split.
      * destruct Hin as [-> | Hin]; [by left | right; by apply list_elem_of_further].
      * split; [exact Hy |]. intros v Hv.
        apply elem_of_cons in Hv as [-> | Hv]; [lra | by apply Hall].
    + assert (Hlt : y < x).
      { destruct (Qlt_le_dec y x) as [Hlt | Hle]; [exact Hlt |].
        apply Qle_bool_iff in Hle. congruence. }
      destruct (IH x) as (M & HM & Hin & Hx & Hall).
      exists M. split; [exact HM |]. split.
      * right. destruct Hin as [-> | Hin];
          [apply list_elem_of_here | by apply list_elem_of_further].
      * split; [lra |]. intros v Hv.
        apply elem_of_cons in Hv as [-> | Hv]; [exact Hx | by apply Hall].
Qed.

Lemma foldl_num_min (l : list Q) (y : Q) :
  exists m : Q,
    foldl num_min (Num y) l = Num m
    /\ (m = y \/ m ∈ l) /\ m <= y /\ (forall v : Q, v ∈ l -> m <= v).
Proof.
  revert y. induction l as [| x l IH]; intros y; simpl.
  - exists y. split; [reflexivity |]. split; [by left |]. split; [lra |].
    intros v Hv. by apply not_elem_of_nil in Hv.
  - destruct (Qle_bool y x) eqn:E.
    + apply Qle_bool_iff in E. destruct (IH y) as (m & Hm & Hin & Hy & Hall).
      exists m. split; [exact Hm |]. split.
      * destruct Hin as [-> | Hin]; [by left | right; by apply list_elem_of_further].
      * split; [exact Hy |]. intros v Hv.
        apply elem_of_cons in Hv as [-> | Hv]; [lra | by apply Hall].
    + assert (Hlt : x < y).
      { destruct (Qlt_le_dec x y) as [Hlt | Hle]; [exact Hlt |].
        apply Qle_bool_iff in Hle. congruence. }
      destruct (IH x) as (m & Hm & Hin & Hx & Hall).
      exists m. split; [exact Hm |]. split.
      * right. destruct Hin as [-> | Hin];
          [apply list_elem_of_here | by apply list_elem_of_further].
      * split; [lra |]. intros v Hv.
        apply elem_of_cons in Hv as [-> | Hv]; [exact Hx | by apply Hall].
Qed.

Lemma Math_max_nonempty (l : list Q) :
  l <> [] ->
  exists M : Q, Math_max l = Num M /\ M ∈ l /\ (forall v : Q, v ∈ l -> v <= M).
Proof.
  destruct l as [| x l]; [congruence | intros _].
  destruct (foldl_num_max l x) as (M & HM & Hin & Hx & Hall).
  exists M. split; [exact HM |]. split.
  - destruct Hin as [-> | Hin]; [apply list_elem_of_here | by apply list_elem_of_further].
  - intros v Hv. apply elem_of_cons in Hv as [-> | Hv]; [exact Hx | by apply Hall].
Qed.

Lemma Math_min_nonempty (l : list Q) :
  l <> [] ->
  exists m : Q, Math_min l = Num m /\ m ∈ l /\ (forall v : Q, v ∈ l -> m <= v).
Proof.
  destruct l as [| x l]; [congruence | intros _].
  destruct (foldl_num_min l x) as (m & Hm & Hin & Hx & Hall).
  exists m. split; [exact Hm |]. split.
  - destruct Hin as [-> | Hin]; [apply list_elem_of_here | by apply list_elem_of_further].
  - intros v Hv. apply elem_of_cons in Hv as [-> | Hv]; [exact Hx | by apply Hall].
Qed.

Lemma elem_of_Object_values (o : gmap string Q) (v : Q) :
  v ∈ Object_values o <-> exists k : string, o !! k = Some v.
Proof.
  unfold Object_values. rewrite list_elem_of_fmap. split.
  - intros ([k v'] & -> & Hin). exists k. by apply elem_of_map_to_list.
  - intros (k & Hk). exists (k, v). split; [reflexivity |].
    by apply elem_of_map_to_list.
Qed.

(** Every entry of the profile is the record of one round of the loop, and
    every round leaves an entry under its label. *)
Lemma getAltituteData_entry (ext : Externals) (this : Moon ext)
    (startTime : Date) (k : string) (v : Q) :
  _getAltituteData ext this startTime !! k = Some v ->
  exists i : Z,
    (0 <= i < 48)%Z
    /\ k = formatTime ext this (sampleTime startTime i)
    /\ v = sampleAltitude ext this (sampleTime startTime i).
Proof.
  intros Hkv.
  destruct (fill_lookup_Some
              (fun i => formatTime ext this (sampleTime startTime i))
              (fun i => sampleAltitude ext this (sampleTime startTime i))
              _ _ _ Hkv) as (i & Hi & Hk & Hv).
  exists i. apply elem_of_rounds in Hi. split; [lia | split; congruence].
Qed.

Lemma getAltituteData_present (ext : Externals) (this : Moon ext)
    (startTime : Date) (i : Z) :
  (0 <= i < 48)%Z ->
  is_Some (_getAltituteData ext this startTime
             !! formatTime ext this (sampleTime startTime i)).
Proof.
  intros Hi.
  apply (fill_lookup_elem
           (fun i => formatTime ext this (sampleTime startTime i))
           (fun i => sampleAltitude ext this (sampleTime startTime i))).
  apply elem_of_rounds. lia.
Qed.

(** The margin below the smallest altitude is taken in doubles: under
    -63.98 it is -73.97999999999999, not -73.98. *)
Example double_margin_below :
  fl (round64 (-63.98) - 10) = Num (-2602939847131791 # 35184372088832)
  /\ Qeq_bool (-2602939847131791 # 35184372088832) (round64 (-73.98)) = false
  /\ Qeq_bool (-2602939847131791 # 35184372088832)
       (round64 (-73.98) + pow2 (-46)) = true.
Proof. repeat split; vm_compute; reflexivity. Qed.

(** C6.  In [todayData] every recorded altitude is [Number(a.toFixed(2))]
    of the altitude [a] that SunCalc gives for one of the 48 sample
    instants: the double nearest to [a] rounded to two decimals.  The chart
    bounds are [Math.ceil(max + 10)] and [min - 10] for the largest and the
    smallest of the recorded altitudes, the sum and the difference being
    those of doubles. *)
Theorem todayData_altitudes_and_bounds (ext : Externals) (this : Moon ext)
    (now : Date) :
  let startTime := setHours0 ext now in
  let today := todayData ext this now in
  let sampled := fun i : Z =>
    IMoonPosition.altitudeDegrees
      (getMoonPosition ext (sampleTime startTime i) (lat ext this) (lon ext this)) in
  altitude today = _getAltituteData ext this startTime
  /\ (forall v : Q,
        v ∈ altitudeData today <->
        exists k : string, altitude today !! k = Some v)
  /\ (forall (k : string) (v : Q),
        altitude today !! k = Some v ->
        exists i : Z,
          (0 <= i < 48)%Z
          /\ v = Number_toFixed (sampled i) 2
          /\ (Qabs (sampled i) < inject_Z (10 ^ 21) ->
              rounded_to_2_decimals (sampled i) v))
  /\ exists M m : Q,
       M ∈ altitudeData today
       /\ (forall v : Q, v ∈ altitudeData today -> v <= M)
       /\ m ∈ altitudeData today
       /\ (forall v : Q, v ∈ altitudeData today -> m <= v)
       /\ MinMaxY.sugestedYMax (minMaxY today) = num_ceil (fl (M + 10))
       /\ MinMaxY.sugestedYMin (minMaxY today) = fl (m - 10)
       /\ (Qabs M + 10 < overflow ->
           MinMaxY.sugestedYMax (minMaxY today)
           = Num (inject_Z (Qceiling (round64 (M + 10)))))
       /\ (Qabs m + 10 < overflow ->
           MinMaxY.sugestedYMin (minMaxY today) = Num (round64 (m - 10))).
Proof.
  intros startTime today sampled.
  pose proof (getAltituteData_entry ext this startTime) as Hentry.
  pose proof (getAltituteData_present ext this startTime) as Hsome.
  split; [reflexivity |]. split; [intros v; apply elem_of_Object_values |]. split.
  - intros k v Hkv. destruct (Hentry k v Hkv) as (i & Hi & _ & Hv).
    exists i. split; [exact Hi |]. split; [exact Hv |].
    intros Hrange. rewrite Hv. by apply Number_toFixed_rounded.
  - assert (Hne : Object_values (_getAltituteData ext this startTime) <> []).
    { destruct (Hsome 0%Z) as [v Hv]; [lia |]. intros Hnil.
      assert (Hin : v ∈ Object_values (_getAltituteData ext this startTime))
        by (apply elem_of_Object_values; eauto).
      rewrite Hnil in Hin. by apply not_elem_of_nil in Hin. }
    destruct (Math_max_nonempty _ Hne) as (M & HM & HMin & HMall).
    destruct (Math_min_nonempty _ Hne) as (m & Hm & Hmin & Hmall).
    exists M, m.
    split; [exact HMin |]. split; [exact HMall |].
    split; [exact Hmin |]. split; [exact Hmall |].
    unfold today, todayData. cbn [minMaxY MinMaxY.sugestedYMax MinMaxY.sugestedYMin].
    fold startTime. rewrite HM, Hm. cbn [num_add num_sub].
    split; [reflexivity |]. split; [reflexivity |]. split.
    + intros Hb. rewrite fl_finite; [reflexivity | |];
        pose proof (Qle_Qabs M); pose proof (Qle_Qabs (- M));
        rewrite Qabs_opp in *; lra.
    + intros Hb. rewrite fl_finite; [reflexivity | |];
        pose proof (Qle_Qabs m); pose proof (Qle_Qabs (- m));
        rewrite Qabs_opp in *; lra.
Qed.

Lemma todayData_altitudes_and_bounds_witness :
  MinMaxY.sugestedYMax
    (minMaxY (todayData (Sample.host Sample.utc None 1)
                  (Sample.moon Sample.utc None 1 "en" None) 1704100000000%Z))
  = Num (inject_Z 97)
  /\ altitude (todayData (Sample.host Sample.utc None 1)
                   (Sample.moon Sample.utc None 1 "en" None) 1704100000000%Z)
     !! "00:30"%string = Some (-345 # 4).
Proof.
  destruct (todayData_altitudes_and_bounds (Sample.host Sample.utc None 1)
              (Sample.moon Sample.utc None 1 "en" None) 1704100000000%Z)
    as (Halt & _ & _ & M & m & _ & _ & _ & _ & Hmax & _).
  split.
  - vm_compute. reflexivity.
  - rewrite Halt. vm_compute. reflexivity.
Defined.

Lemma convertKmToMiles_linear_witness :
  formatted_distance (Sample.host Sample.utc None 1)
    (Sample.moon Sample.utc None 1 "en" (Some true)) = "238855.01"%string
  /\ formatted_distance (Sample.host Sample.utc None 1)
       (Sample.moon Sample.utc None 1 "en" None) = "384400.00"%string.
Proof.
  split.
  - destruct (convertKmToMiles_linear (Sample.host Sample.utc None 1)
                (Sample.moon Sample.utc None 1 "en" (Some true)) 384400)
      as (_ & _ & _ & _ & H & _).
    rewrite H. vm_compute. reflexivity.
  - destruct (convertKmToMiles_linear (Sample.host Sample.utc None 1)
                (Sample.moon Sample.utc None 1 "en" None) 384400)
      as (_ & _ & _ & _ & H & _).
    rewrite H. vm_compute. reflexivity.
Defined.

(** ** Further properties of the cardinal direction *)

Lemma Math_round_bucket (degrees : Q) (k : Z) :
  inject_Z (45 * k) - 22.5 <= degrees -> degrees < inject_Z (45 * k) + 22.5 ->
  Math_round (degrees / 45) = k.
Proof.
  intros Hlo Hhi. rewrite inject_Z_mult in Hlo, Hhi.
  assert (Hk : (k <= Math_round (degrees / 45) < k + 1)%Z).
  { apply Math_round_bounds; [| rewrite inject_Z_plus]; qsolve. }
  lia.
Qed.

(** X1.  Compass point [k] of the table covers the 45 degree bucket centred
    on [45 * k]: an azimuth of [45k - 22.5, 45k + 22.5) is looked up at
    index [k], which is a compass point for [k] from 0 to 8 and nothing for
    any other [k]. *)
Theorem convertCardinal_bucket (degrees : Q) (k : Z) :
  inject_Z (45 * k) - 22.5 <= degrees -> degrees < inject_Z (45 * k) + 22.5 ->
  _convertCardinal degrees = array_get cardinalPoints k
  /\ ((0 <= k <= 8)%Z ->
      exists p, _convertCardinal degrees = Some p /\ p ∈ compassTable)
  /\ ((k < 0 \/ 8 < k)%Z -> _convertCardinal degrees = None).
Proof.
  intros Hlo Hhi. unfold _convertCardinal.
  rewrite (Math_round_bucket degrees k Hlo Hhi).
  split; [reflexivity |]. split.
  - intros Hk.
    assert (Hcases : k = 0%Z \/ k = 1%Z \/ k = 2%Z \/ k = 3%Z \/ k = 4%Z
                     \/ k = 5%Z \/ k = 6%Z \/ k = 7%Z \/ k = 8%Z) by lia.
    destruct Hcases as [-> | [-> | [-> | [-> | [-> | [-> | [-> | [-> | ->]]]]]]]];
      (eexists; split; [reflexivity | apply list_elem_of_In; simpl; tauto]).
  - intros [Hneg | Hbig]; unfold array_get.
    + apply Z.ltb_lt in Hneg. rewrite Hneg. reflexivity.
    + assert (Hge : (k <? 0)%Z = false) by (apply Z.ltb_ge; lia).
      rewrite Hge. apply lookup_ge_None. simpl. lia.
Qed.

Lemma convertCardinal_bucket_witness :
  _convertCardinal 200 = Some "S"%string /\ _convertCardinal (-100) = None.
Proof.
  split.
  - destruct (convertCardinal_bucket 200 4) as (H & _); [vm_compute; discriminate
                                                         | vm_compute; reflexivity |].
    rewrite H. reflexivity.
  - apply (convertCardinal_bucket (-100) (-2)); [vm_compute; discriminate
                                                 | vm_compute; reflexivity | lia].
Defined.

(** ** Further properties of the items *)

Lemma append_empty_r (s : string) : s +:+ "" = s.
Proof.
  induction s as [| c s IH]; [reflexivity |].
  change (String c s +:+ "") with (String c (s +:+ "")). by rewrite IH.
Qed.

(** X2.  Without a unit ([undefined] or the empty string) an item shows the
    value as it is; a second value is shown as it is and a missing one is
    the empty string; hence a time item shows the formatted time, with no
    separator after it, and the localised relative time. *)
Theorem createItem_without_unit (ext : Externals) (this : Moon ext)
    (label value s key : string) (unit : option string) (time : Date) :
  (truthy unit = false ->
   MoonDataItem.value (createItem ext this label value unit None) = value)
  /\ MoonDataItem.secondValue (createItem ext this label value unit (Some s)) = s
  /\ MoonDataItem.secondValue (createItem ext this label value unit None)
     = ""%string
  /\ MoonDataItem.value (createMoonTime ext this key time)
     = formatTime ext this time
  /\ MoonDataItem.secondValue (createMoonTime ext this key time)
     = localizeRelativeTime ext this time.
Proof.
  split; [| split; [| split; [reflexivity | split]]].
  - intros Hu. unfold createItem. cbn [MoonDataItem.value]. rewrite Hu.
    apply append_empty_r.
  - destruct s; reflexivity.
  - unfold createMoonTime, createItem. cbn [MoonDataItem.value truthy].
    apply append_empty_r.
  - unfold createMoonTime, createItem. simpl.
    destruct (localizeRelativeTime ext this time); reflexivity.
Qed.

Lemma createItem_without_unit_witness :
  MoonDataItem.value
    (createItem (Sample.host Sample.utc None 1)
       (Sample.moon Sample.utc None 1 "en" None) "fullMoon" "Thu, Jan 25"
       (Some ""%string) None) = "Thu, Jan 25"%string.
Proof.
  apply (createItem_without_unit (Sample.host Sample.utc None 1)
           (Sample.moon Sample.utc None 1 "en" None) "fullMoon" "Thu, Jan 25"
           "" "" (Some ""%string) 0%Z).
  reflexivity.
Defined.

(** X3.  The separator is never anything but the empty string or one
    regular space, and the language only matters before the percent sign. *)
Theorem blackBeforeUnit_range (ext : Externals) (this other : Moon ext)
    (unit : string) :
  (blackBeforeUnit ext this unit = ""%string
   \/ blackBeforeUnit ext this unit = " "%string)
  /\ (unit <> "%"%string ->
      blackBeforeUnit ext this unit = blackBeforeUnit ext other unit).
Proof.
  unfold blackBeforeUnit. split.
  - destruct (String.eqb unit "°"); [by left |].
    destruct (String.eqb unit "%"); [| by right].
    destruct (existsb _ _); [by right | by left].
  - intros Hpct. apply String.eqb_neq in Hpct. rewrite Hpct. reflexivity.
Qed.

Lemma blackBeforeUnit_range_witness :
  blackBeforeUnit (Sample.host Sample.utc None 1)
    (Sample.moon Sample.utc None 1 "fr" None) "km"
  = blackBeforeUnit (Sample.host Sample.utc None 1)
      (Sample.moon Sample.utc None 1 "en" None) "km".
Proof.
  apply (blackBeforeUnit_range (Sample.host Sample.utc None 1)
           (Sample.moon Sample.utc None 1 "fr" None)
           (Sample.moon Sample.utc None 1 "en" None) "km").
  discriminate.
Defined.

Lemma array_get_is_Some {A : Type} (arr : list A) (k : Z) :
  is_Some (array_get arr k) <-> (0 <= k < Z.of_nat (length arr))%Z.
Proof.
  unfold array_get. destruct (k <? 0)%Z eqn:E.
  - apply Z.ltb_lt in E. split; [intros [x Hx]; discriminate | lia].
  - apply Z.ltb_ge in E. rewrite lookup_lt_is_Some. lia.
Qed.

Lemma convertCardinal_outside (degrees : Q) :
  382.5 <= degrees \/ degrees < -22.5 -> _convertCardinal degrees = None.
Proof.
  intros Hout.
  destruct (_convertCardinal degrees) as [p |] eqn:E; [| reflexivity].
  assert (Hs : is_Some (array_get cardinalPoints (Math_round (degrees / 45))))
    by (change (is_Some (_convertCardinal degrees)); rewrite E; eauto).
  apply array_get_is_Some in Hs. simpl in Hs. exfalso.
  unfold Math_round in Hs.
  pose proof (Qfloor_le (degrees / 45 + 1 / 2)) as Hlo.
  pose proof (Qlt_floor (degrees / 45 + 1 / 2)) as Hhi.
  destruct Hs as [H0 H9].
  assert (H9' : (Qfloor (degrees / 45 + 1 / 2) + 1 <= 9)%Z) by lia.
  rewrite Zle_Qle in H0, H9'.
  destruct Hout; qsolve.
Qed.

(** X4.  In [todayDataItem] the direction shows the azimuth rounded to
    whole degrees with the degree sign right after it, and as second value
    the compass point, or the empty string where the lookup finds none
    (from 382.5 degrees on and below -22.5 degrees); the position is
    [overHorizon] for an altitude above zero and [underHorizon] at zero
    and below. *)
Theorem todayDataItem_direction_position (ext : Externals) (this : Moon ext) :
  let azimuth := IMoonData.azimuthDegrees (_moonData ext this) in
  let altitude := IMoonData.altitudeDegrees (_moonData ext this) in
  let item := todayDataItem ext this in
  MoonDataItem.value (azimuthCardinal item)
    = formatNumber ext (toFixed (Number_toString ext) azimuth 0) (locale this)
      +:+ "°"
  /\ MoonDataItem.secondValue (azimuthCardinal item)
     = default ""%string (_convertCardinal azimuth)
  /\ (382.5 <= azimuth \/ azimuth < -22.5 ->
      MoonDataItem.secondValue (azimuthCardinal item) = ""%string)
  /\ (0 < altitude ->
      MoonDataItem.value (positionFormated item)
      = localize ext "card.overHorizon" (lang this) "" "")
  /\ (altitude <= 0 ->
      MoonDataItem.value (positionFormated item)
      = localize ext "card.underHorizon" (lang this) "" "").
Proof.
  intros azimuth altitude item.
  assert (Hsecond : MoonDataItem.secondValue (azimuthCardinal item)
                    = default ""%string (_convertCardinal azimuth)).
  { unfold item, todayDataItem, createItem.
    cbn [azimuthCardinal MoonDataItem.secondValue]. fold azimuth.
    destruct (_convertCardinal azimuth) as [[| c p] |]; reflexivity. }
  split; [reflexivity |]. split; [exact Hsecond |]. split; [| split].
  - intros Hout. rewrite Hsecond, (convertCardinal_outside azimuth Hout).
    reflexivity.
  - intros Hpos. unfold item, todayDataItem, createItem.
    cbn [positionFormated MoonDataItem.value truthy]. fold altitude.
    assert (E : Qle_bool altitude 0 = false).
    { destruct (Qle_bool altitude 0) eqn:E; [| reflexivity].
      apply Qle_bool_iff in E. lra. }
    rewrite E. apply append_empty_r.
  - intros Hneg. unfold item, todayDataItem, createItem.
    cbn [positionFormated MoonDataItem.value truthy]. fold altitude.
    apply Qle_bool_iff in Hneg. rewrite Hneg. apply append_empty_r.
Qed.

Lemma todayDataItem_direction_position_witness :
  MoonDataItem.secondValue
    (azimuthCardinal
       (todayDataItem (Sample.host Sample.utc None 1)
          (Sample.moon Sample.utc None 1 "en" None))) = "E"%string
  /\ MoonDataItem.value
       (positionFormated
          (todayDataItem (Sample.host Sample.utc None 1)
             (Sample.moon Sample.utc None 1 "en" None)))
     = "card.overHorizon"%string.
Proof.
  destruct (todayDataItem_direction_position (Sample.host Sample.utc None 1)
              (Sample.moon Sample.utc None 1 "en" None))
    as (_ & Hsecond & _ & Hover & _).
  split.
  - rewrite Hsecond. reflexivity.
  - rewrite Hover; [reflexivity | vm_compute; reflexivity].
Defined.

(** X5.  The distance item of a card agrees with its configuration: with
    [mile_unit] set the number is the distance times 0.621371 and the unit
    is [mi]; with [mile_unit] unset or false the number is the distance
    itself and the unit is [km]; a regular space separates the two. *)
Theorem moonData_distance_unit (ext : Externals) (date : Date) (lang : string)
    (config : Config.t) (loc : FrontendLocaleData ext) :
  let this := new_Moon ext date lang config loc in
  let km :=
    IMoonData.distance
      (getMoonData ext date (Config.latitude config) (Config.longitude config)) in
  (Config.mile_unit config = Some true ->
   MoonDataItem.value (MoonData.distance (moonData ext this))
   = formatNumber ext (toFixed (Number_toString ext) (km * 0.621371) 2) loc
     +:+ " mi")
  /\ (Config.mile_unit config <> Some true ->
      MoonDataItem.value (MoonData.distance (moonData ext this))
      = formatNumber ext (toFixed (Number_toString ext) km 2) loc +:+ " km").
Proof.
  intros this km. split.
  - intros Hm. unfold this, moonData, createItem, formatted_distance,
      this_formatNumber, toFixed2, convertKmToMiles, new_Moon.
    cbn [MoonData.distance MoonDataItem.value useMiles locale].
    rewrite Hm. reflexivity.
  - intros Hm. unfold this, moonData, createItem, formatted_distance,
      this_formatNumber, toFixed2, convertKmToMiles, new_Moon.
    cbn [MoonData.distance MoonDataItem.value useMiles locale].
    destruct (Config.mile_unit config) as [[|] |]; [congruence | |]; reflexivity.
Qed.

Lemma moonData_distance_unit_witness :
  MoonDataItem.value
    (MoonData.distance
       (moonData (Sample.host Sample.utc None 1)
          (Sample.moon Sample.utc None 1 "en" (Some true))))
  = "238855.01 mi"%string
  /\ MoonDataItem.value
       (MoonData.distance
          (moonData (Sample.host Sample.utc None 1)
             (Sample.moon Sample.utc None 1 "en" None)))
     = "384400.00 km"%string.
Proof.
  split.
  - destruct (moonData_distance_unit (Sample.host Sample.utc None 1)
                1704067200000%Z "en" (Sample.hanoi (Some true)) tt) as (H & _).
    unfold Sample.moon. rewrite H; [vm_compute; reflexivity | reflexivity].
  - destruct (moonData_distance_unit (Sample.host Sample.utc None 1)
                1704067200000%Z "en" (Sample.hanoi None) tt) as (_ & H).
    unfold Sample.moon. rewrite H; [vm_compute; reflexivity | discriminate].
Defined.

(** ** Further properties of the image selection *)

(** X6.  With the 31 images in place, [moonImage] has a picture exactly
    when the product [phaseValue * 31] is a finite double that is not
    negative or whose floor is a multiple of 31.  So there is a picture for
    every phase value from 0 on that keeps the product finite (also for 1
    and beyond, where the remainder wraps the index round); a product that
    overflows gives no picture; and a negative phase value never reaches
    an index above 0. *)
Theorem moonImage_defined_iff (ext : Externals) (this : Moon ext) :
  let phaseValue :=
    IIllumination.phaseValue (IMoonData.illumination (_moonData ext this)) in
  length (MOON_IMAGES ext) = 31%nat ->
  (is_Some (MoonImage.moonPic (moonImage ext this))
   <-> exists product : Q,
         fl (phaseValue * 31) = Num product
         /\ (0 <= product \/ Z.rem (Qfloor product) 31 = 0%Z))
  /\ (0 <= phaseValue -> phaseValue * 31 < overflow ->
      is_Some (MoonImage.moonPic (moonImage ext this))
      /\ exists k : Z, phaseIndex ext this = Some k /\ (0 <= k <= 30)%Z)
  /\ (overflow <= phaseValue * 31 ->
      phaseIndex ext this = None
      /\ MoonImage.moonPic (moonImage ext this) = None)
  /\ (phaseValue < 0 ->
      forall k : Z, phaseIndex ext this = Some k -> (-30 <= k <= 0)%Z).
Proof.
  intros phaseValue Hlen.
  assert (Hov : 0 < overflow) by reflexivity.
  assert (Hpos : forall y : Q, 0 <= y -> (0 <= Z.rem (Qfloor y) 31 <= 30)%Z).
  { intros y Hy.
    assert (Hk : (0 <= Qfloor y)%Z).
    { rewrite <- (Qfloor_Z 0). by apply Qfloor_resp_le. }
    pose proof (Z.rem_bound_pos (Qfloor y) 31 Hk) as Hb. lia. }
  assert (Hneg : forall y : Q, y < 0 -> (-30 <= Z.rem (Qfloor y) 31 <= 0)%Z).
  { intros y Hy.
    assert (Hk : (Qfloor y <= 0)%Z).
    { pose proof (Qfloor_le y) as Hf. apply Z.le_ngt. intros Hc.
      assert (Hc' : (1 <= Qfloor y)%Z) by lia.
      rewrite Zle_Qle in Hc'. qsolve. }
    pose proof (Z.rem_bound_pos_neg (Qfloor y) 31) as Hb. lia. }
  assert (Hiff : is_Some (MoonImage.moonPic (moonImage ext this))
                 <-> exists product : Q,
                       fl (phaseValue * 31) = Num product
                       /\ (0 <= product \/ Z.rem (Qfloor product) 31 = 0%Z)).
  { unfold moonImage, phaseIndex. cbn [MoonImage.moonPic]. fold phaseValue.
    destruct (fl (phaseValue * 31)) as [y | | |].
    - rewrite array_get_is_Some, Hlen. unfold rem, Math_floor. split.
      + intros Hin. exists y. split; [reflexivity |].
        destruct (Qlt_le_dec y 0) as [Hn | Hp]; [| by left].
        right. specialize (Hneg y Hn). lia.
      + intros (y' & [= <-] & [Hp | Hz]).
        * specialize (Hpos y Hp). lia.
        * rewrite Hz. lia.
    - split; [intros [x Hx]; discriminate | intros (y & Hy & _); discriminate].
    - split; [intros [x Hx]; discriminate | intros (y & Hy & _); discriminate].
    - split; [intros [x Hx]; discriminate | intros (y & Hy & _); discriminate]. }
  split; [exact Hiff |]. split; [| split].
  - intros H0 H1.
    assert (Hfl : fl (phaseValue * 31) = Num (round64 (phaseValue * 31)))
      by (apply fl_finite; lra).
    assert (Hr : 0 <= round64 (phaseValue * 31)) by (apply round64_nonneg; lra).
    split.
    + apply Hiff. eexists. split; [exact Hfl | by left].
    + unfold phaseIndex. fold phaseValue. rewrite Hfl.
      eexists. split; [reflexivity |]. by apply Hpos.
  - intros H1.
    assert (Hfl : fl (phaseValue * 31) = Infinity).
    { unfold fl. apply Qle_bool_iff in H1. by rewrite H1. }
    unfold moonImage, phaseIndex. cbn [MoonImage.moonPic]. fold phaseValue.
    rewrite Hfl. split; reflexivity.
  - intros H0 k. unfold phaseIndex. fold phaseValue.
    destruct (fl (phaseValue * 31)) as [y | | |] eqn:Hfl; try discriminate.
    intros [= <-]. unfold rem, Math_floor.
    assert (Hy : y <= 0).
    { destruct (fl_upto 0 (phaseValue * 31)) as [Hc | (d & Hd & Hle)];
        [reflexivity | exact Hov | lra | congruence |].
      rewrite Hfl in Hd. by injection Hd as ->. }
    destruct (Qlt_le_dec y 0) as [Hn | Hp]; [by apply Hneg |].
    assert (Hz : 0 <= y) by exact Hp.
    specialize (Hpos y Hz).
    assert (Hf : (Qfloor y <= 0)%Z).
    { rewrite <- (Qfloor_Z 0). by apply Qfloor_resp_le. }
    assert (Hf' : (0 <= Qfloor y)%Z).
    { rewrite <- (Qfloor_Z 0). by apply Qfloor_resp_le. }
    assert (E : Qfloor y = 0%Z) by lia. rewrite E.
    change (Z.rem 0 31) with 0%Z. lia.
Qed.

Lemma moonImage_defined_iff_witness :
  is_Some (MoonImage.moonPic
             (moonImage (Sample.host Sample.utc None 1)
                (Sample.moon Sample.utc None 1 "en" None))).
Proof.
  destruct (moonImage_defined_iff (Sample.host Sample.utc None 1)
              (Sample.moon Sample.utc None 1 "en" None)) as (Hiff & _);
    [reflexivity |].
  apply Hiff. exists (round64 (0.65 * 31)). split; [vm_compute; reflexivity |].
  left. vm_compute. discriminate.
Defined.

(** A number of at least the smallest double does not round to zero. *)
Lemma round64_min (q : Q) : pow2 (-1074) <= q -> pow2 (-1074) <= round64 q.
Proof.
  intros H.
  assert (E : round64 (pow2 (-1074)) == pow2 (-1074)) by (vm_compute; reflexivity).
  rewrite <- E at 1. by apply round64_mono.
Qed.

(** X7.  The rotation is never [NaN] and has the sign of
    [zenithAngle - parallacticAngle]: it is zero when the two angles are
    equal, positive (or [Infinity]) when the zenith angle is the larger by
    the smallest double or more, and negative (or [-Infinity]) when it is
    the smaller. *)
Theorem moonImage_rotation_sign (ext : Externals) (this : Moon ext) :
  let zenithAngle := IMoonData.zenithAngle (_moonData ext this) in
  let parallacticAngle := IMoonData.parallacticAngle (_moonData ext this) in
  let rotateDeg := MoonImage.rotateDeg (moonImage ext this) in
  rotateDeg <> NaN
  /\ (zenithAngle == parallacticAngle -> exists r : Q, rotateDeg = Num r /\ r == 0)
  /\ (pow2 (-1074) <= zenithAngle - parallacticAngle ->
      rotateDeg = Infinity \/ exists r : Q, rotateDeg = Num r /\ 0 < r)
  /\ (pow2 (-1074) <= parallacticAngle - zenithAngle ->
      rotateDeg = NegInfinity \/ exists r : Q, rotateDeg = Num r /\ r < 0).
Proof.
  intros zenithAngle parallacticAngle rotateDeg.
  assert (Hrot : rotateDeg
                 = num_mul (fl (zenithAngle - parallacticAngle))
                     (Num (1007958012753983 # 17592186044416))).
  { unfold rotateDeg, moonImage. cbn [MoonImage.rotateDeg].
    by rewrite fdiv_180_PI. }
  set (c := 1007958012753983 # 17592186044416) in *.
  set (D := zenithAngle - parallacticAngle) in *.
  assert (Hov : 1 < overflow) by reflexivity.
  pose proof (pow2_pos (-1074)) as Hmin.
  assert (Hsmall : pow2 (-1074) < 1) by reflexivity.
  split; [| split; [| split]].
  - rewrite Hrot. unfold fl.
    destruct (Qle_bool overflow D); [discriminate |].
    destruct (Qle_bool D (- overflow)); [discriminate |].
    cbn [num_mul]. unfold fl.
    destruct (Qle_bool overflow (round64 D * c)); [discriminate |].
    destruct (Qle_bool (round64 D * c) (- overflow)); discriminate.
  - intros Heq. assert (HD : D == 0) by (unfold D; lra).
    rewrite Hrot, fl_finite by lra. cbn [num_mul].
    pose proof (round64_0 D HD) as Hd.
    assert (Hp : round64 D * c == 0) by (rewrite Hd; ring).
    rewrite fl_finite by lra.
    eexists. split; [reflexivity |]. by apply round64_0.
  - intros HD. rewrite Hrot.
    destruct (Qlt_le_dec D overflow) as [Hfin | Hinf].
    + rewrite fl_finite by lra. cbn [num_mul].
      pose proof (round64_min D HD) as Hd.
      assert (Hp : pow2 (-1074) <= round64 D * c) by (unfold c; qsolve).
      destruct (Qlt_le_dec (round64 D * c) overflow) as [Hfin2 | Hinf2].
      * right. rewrite fl_finite by lra. eexists. split; [reflexivity |].
        pose proof (round64_min _ Hp). lra.
      * left. unfold fl. apply Qle_bool_iff in Hinf2. by rewrite Hinf2.
    + left. unfold fl. apply Qle_bool_iff in Hinf. by rewrite Hinf.
  - intros HD. rewrite Hrot.
    assert (HD' : pow2 (-1074) <= - D) by (unfold D; lra).
    destruct (Qlt_le_dec (- overflow) D) as [Hfin | Hinf].
    + rewrite fl_finite by lra. cbn [num_mul].
      pose proof (round64_min (- D) HD') as Hd. rewrite round64_opp in Hd.
      assert (Hp : pow2 (-1074) <= - (round64 D * c)) by (unfold c; qsolve).
      destruct (Qlt_le_dec (- overflow) (round64 D * c)) as [Hfin2 | Hinf2].
      * right. rewrite fl_finite by lra. eexists. split; [reflexivity |].
        pose proof (round64_min _ Hp) as Hr. rewrite round64_opp in Hr. lra.
      * left. unfold fl.
        assert (E1 : Qle_bool overflow (round64 D * c) = false).
        { destruct (Qle_bool overflow (round64 D * c)) eqn:E; [| reflexivity].
          apply Qle_bool_iff in E. lra. }
        apply Qle_bool_iff in Hinf2. by rewrite E1, Hinf2.
    + left. unfold fl.
      assert (E1 : Qle_bool overflow D = false).
      { destruct (Qle_bool overflow D) eqn:E; [| reflexivity].
        apply Qle_bool_iff in E. lra. }
      apply Qle_bool_iff in Hinf. by rewrite E1, Hinf.
Qed.

(** ** Further properties of the altitude profile *)

Lemma getAltituteData_size (ext : Externals) (this : Moon ext) (startTime : Date) :
  (1 <= size (_getAltituteData ext this startTime) <= 48)%nat.
Proof.
  split.
  - destruct (getAltituteData_present ext this startTime 0%Z) as [v Hv]; [lia |].
    destruct (decide (size (_getAltituteData ext this startTime) = 0%nat))
      as [Hz | Hnz]; [| lia].
    apply map_size_empty_iff in Hz. rewrite Hz, lookup_empty in Hv. discriminate.
  - pose proof (fill_size_le
                  (fun i => formatTime ext this (sampleTime startTime i))
                  (fun i => sampleAltitude ext this (sampleTime startTime i))
                  (Z.of_nat <$> seq 0 48)) as Hle.
    rewrite length_fmap, length_seq in Hle. exact Hle.
Qed.

(** X8.  The labels and the altitudes that [todayData] hands to the chart
    are parallel: as many labels as altitudes, one per entry of the
    profile and between 1 and 48 of them, no label twice, and the altitude
    at a position is the one the profile records under the label at that
    position. *)
Theorem todayData_labels_and_values (ext : Externals) (this : Moon ext)
    (now : Date) :
  let today := todayData ext this now in
  length (timeLabels today) = length (altitudeData today)
  /\ length (timeLabels today) = size (altitude today)
  /\ (1 <= length (timeLabels today) <= 48)%nat
  /\ NoDup (timeLabels today)
  /\ (forall (n : nat) (k : string),
        timeLabels today !! n = Some k ->
        exists v : Q,
          altitudeData today !! n = Some v /\ altitude today !! k = Some v)
  /\ (forall k : string, k ∈ timeLabels today <-> is_Some (altitude today !! k)).
Proof.
  intros today.
  set (data := _getAltituteData ext this (setHours0 ext now)).
  assert (Hlabels : timeLabels today = (map_to_list data).*1) by reflexivity.
  assert (Hvalues : altitudeData today = (map_to_list data).*2) by reflexivity.
  assert (Hdata : altitude today = data) by reflexivity.
  rewrite Hlabels, Hvalues, Hdata.
  assert (Hlen : length (map_to_list data).*1 = size data)
    by (rewrite length_fmap; apply length_map_to_list).
  split; [by rewrite !length_fmap |]. split; [exact Hlen |].
  split; [rewrite Hlen; apply getAltituteData_size |].
  split; [apply NoDup_fst_map_to_list |]. split.
  - intros n k Hk. rewrite list_lookup_fmap in Hk.
    destruct (map_to_list data !! n) as [[k' v] |] eqn:E; [| discriminate].
    simpl in Hk. injection Hk as ->. exists v. split.
    + rewrite list_lookup_fmap, E. reflexivity.
    + apply elem_of_map_to_list. apply list_elem_of_lookup. eauto.
  - intros k. rewrite list_elem_of_fmap. split.
    + intros ([k' v] & -> & Hin). exists v. by apply elem_of_map_to_list.
    + intros [v Hv]. exists (k, v). split; [reflexivity |].
      by apply elem_of_map_to_list.
Qed.

(** X10.  The profile does not read the date of the card, its
    configuration or its locale: two cards with the same location, clock
    format and language have the same profile for a day. *)
Theorem getAltituteData_frame (ext : Externals) (this other : Moon ext)
    (startTime : Date) :
  location this = location other -> amPm this = amPm other ->
  lang this = lang other ->
  _getAltituteData ext this startTime = _getAltituteData ext other startTime.
Proof.
  intros Hloc Ham Hlang.
  unfold _getAltituteData. f_equal.
  unfold _getAltituteData_step, formatTime, sampleAltitude, lat, lon.
  rewrite Hloc, Ham, Hlang. reflexivity.
Qed.

Lemma getAltituteData_frame_witness :
  _getAltituteData (Sample.host Sample.utc None 1)
    (Sample.moon Sample.utc None 1 "en" None) 1704067200000%Z
  = _getAltituteData (Sample.host Sample.utc None 1)
      (Sample.moon Sample.utc None 1 "en" (Some true)) 1704067200000%Z.
Proof.
  apply (getAltituteData_frame (Sample.host Sample.utc None 1)
           (Sample.moon Sample.utc None 1 "en" None)
           (Sample.moon Sample.utc None 1 "en" (Some true)));
    reflexivity.
Defined.

(** X11.  The recorded altitudes keep the order of the altitudes SunCalc
    gives: where the moon is not higher at one instant than at another,
    the recorded altitude is not higher either; and a recorded altitude is
    the raw one rounded to two decimals. *)
Theorem sampleAltitude_monotone (ext : Externals) (this : Moon ext)
    (t1 t2 : Date) :
  let raw := fun t : Date =>
    IMoonPosition.altitudeDegrees
      (getMoonPosition ext t (lat ext this) (lon ext this)) in
  Qabs (raw t1) < inject_Z (10 ^ 21) -> Qabs (raw t2) < inject_Z (10 ^ 21) ->
  raw t1 <= raw t2 ->
  sampleAltitude ext this t1 <= sampleAltitude ext this t2
  /\ rounded_to_2_decimals (raw t1) (sampleAltitude ext this t1).
Proof.
  intros raw H1 H2 Hle. split.
  - apply Number_toFixed_mono; assumption.
  - apply (Number_toFixed_rounded (raw t1) H1).
Qed.

Lemma sampleAltitude_monotone_witness :
  sampleAltitude (Sample.host Sample.utc None 1)
    (Sample.moon Sample.utc None 1 "en" None) 1704067200000%Z
  <= sampleAltitude (Sample.host Sample.utc None 1)
       (Sample.moon Sample.utc None 1 "en" None) 1704069000000%Z.
Proof.
  apply (sampleAltitude_monotone (Sample.host Sample.utc None 1)
           (Sample.moon Sample.utc None 1 "en" None)
           1704067200000%Z 1704069000000%Z);
    vm_compute; first [reflexivity | discriminate].
Defined.

(** X12.  While SunCalc keeps the altitude within -90 and 90 degrees, so
    are all recorded altitudes, and the chart bounds of [todayData] stay
    within -100 and 100. *)
Theorem todayData_bounds_physical (ext : Externals) (this : Moon ext)
    (now : Date) :
  (forall t : Date,
     -90 <= IMoonPosition.altitudeDegrees
              (getMoonPosition ext t (lat ext this) (lon ext this)) <= 90) ->
  let today := todayData ext this now in
  (forall v : Q, v ∈ altitudeData today -> -90 <= v <= 90)
  /\ exists lo hi : Q,
       MinMaxY.sugestedYMin (minMaxY today) = Num lo
       /\ MinMaxY.sugestedYMax (minMaxY today) = Num hi
       /\ -100 <= lo /\ hi <= 100.
Proof.
  intros Hphys today.
  set (data := _getAltituteData ext this (setHours0 ext now)).
  assert (Hrange : forall v : Q, v ∈ Object_values data -> -90 <= v <= 90).
  { intros v Hv. apply elem_of_Object_values in Hv as (k & Hk).
    destruct (getAltituteData_entry ext this _ k v Hk) as (i & _ & _ & ->).
    unfold sampleAltitude.
    set (a := IMoonPosition.altitudeDegrees _).
    assert (Ha : -90 <= a <= 90) by apply Hphys.
    assert (Hbig : (90 : Q) < inject_Z (10 ^ 21)) by reflexivity.
    assert (Habs : Qabs a < inject_Z (10 ^ 21)).
    { apply Qle_lt_trans with 90; [| exact Hbig].
      apply Qabs_Qle_condition. lra. }
    assert (H90 : Qabs 90 < inject_Z (10 ^ 21)) by reflexivity.
    assert (Hm90 : Qabs (-90) < inject_Z (10 ^ 21)) by reflexivity.
    pose proof (Number_toFixed_mono a 90 Habs H90 (proj2 Ha)) as Hup.
    pose proof (Number_toFixed_mono (-90) a Hm90 Habs (proj1 Ha)) as Hdown.
    assert (E90 : Number_toFixed 90 2 == 90) by (vm_compute; reflexivity).
    assert (Em90 : Number_toFixed (-90) 2 == -90) by (vm_compute; reflexivity).
    lra. }
  split; [exact Hrange |].
  assert (Hne : Object_values data <> []).
  { destruct (getAltituteData_present ext this (setHours0 ext now) 0%Z)
      as [v Hv]; [lia |].
    intros Hnil.
    assert (Hin : v ∈ Object_values data) by (apply elem_of_Object_values; eauto).
    rewrite Hnil in Hin. by apply not_elem_of_nil in Hin. }
  destruct (Math_max_nonempty _ Hne) as (M & HM & HMin & _).
  destruct (Math_min_nonempty _ Hne) as (m & Hm & Hmin & _).
  assert (Hov : 100 < overflow) by reflexivity.
  specialize (Hrange m Hmin) as Hrm. specialize (Hrange M HMin) as HrM.
  assert (Hlo : fl (m - 10) = Num (round64 (m - 10))) by (apply fl_finite; lra).
  assert (Hhi : fl (M + 10) = Num (round64 (M + 10))) by (apply fl_finite; lra).
  exists (round64 (m - 10)), (inject_Z (Qceiling (round64 (M + 10)))).
  split; [| split; [| split]].
  - unfold today, todayData. cbn [minMaxY MinMaxY.sugestedYMin].
    fold data. rewrite Hm. cbn [num_sub]. exact Hlo.
  - unfold today, todayData. cbn [minMaxY MinMaxY.sugestedYMax].
    fold data. rewrite HM. cbn [num_add]. rewrite Hhi. reflexivity.
  - assert (E : round64 (-100) == -100) by (vm_compute; reflexivity).
    rewrite <- E. apply round64_mono. lra.
  - assert (E : round64 100 == 100) by (vm_compute; reflexivity).
    assert (Hr : round64 (M + 10) <= 100).
    { rewrite <- E. apply round64_mono. lra. }
    assert (Hc : (Qceiling (round64 (M + 10)) <= Qceiling (inject_Z 100))%Z).
    { apply Qceiling_resp_le. qsolve. }
    rewrite Qceiling_Z in Hc. rewrite Zle_Qle in Hc. qsolve.
Qed.

Lemma sky_altitude_range (t : Date) :
  -90 <= Sample.sky_altitude t <= 90.
Proof.
  unfold Sample.sky_altitude.
  pose proof (Z.mod_pos_bound (t / 60000) 1440 eq_refl) as Hm.
  assert (Hlo : (-720 <= (t / 60000) mod 1440 - 720)%Z) by lia.
  assert (Hhi : ((t / 60000) mod 1440 - 720 <= 720)%Z) by lia.
  rewrite Zle_Qle in Hlo, Hhi. qsolve.
Qed.

Lemma todayData_bounds_physical_witness :
  exists lo hi : Q,
    MinMaxY.sugestedYMin
      (minMaxY (todayData (Sample.host Sample.utc None 1)
                  (Sample.moon Sample.utc None 1 "en" None) 1704100000000%Z))
    = Num lo
    /\ MinMaxY.sugestedYMax
         (minMaxY (todayData (Sample.host Sample.utc None 1)
                     (Sample.moon Sample.utc None 1 "en" None) 1704100000000%Z))
       = Num hi
    /\ -100 <= lo /\ hi <= 100.
Proof.
  apply (todayData_bounds_physical (Sample.host Sample.utc None 1)
           (Sample.moon Sample.utc None 1 "en" None) 1704100000000%Z).
  intros t. apply sky_altitude_range.
Defined.

(** ** Rise and set on the chart: theorems *)

(** X13.  For a time that SunCalc supplies under [timeKey] and that the
    local clock shows as [h:m], [_getRiseSetData] gives the index
    [2 * h + m / 30] (integer division), a number from 0 to 47, with the
    altitude of the moon at that time, not rounded.  On a day whose clock
    runs on from the local midnight [startTime], that index is the one of
    the profile sample in whose half hour the time falls. *)
Theorem getRiseSetData_index (ext : Externals) (clock : LocalClock)
    (this : Moon ext) (now : Date) (timeKey : string) (time : Date) :
  timeData_get (getMoonTimes ext now (lat ext this) (lon ext this)) timeKey
    = Some time ->
  (0 <= getHours clock time <= 23)%Z ->
  (0 <= getMinutes clock time <= 59)%Z ->
  exists r : RiseSetData.t,
    _getRiseSetData ext clock this now timeKey = Some r
    /\ RiseSetData.index r
       = (2 * getHours clock time + getMinutes clock time / 30)%Z
    /\ (0 <= RiseSetData.index r <= 47)%Z
    /\ RiseSetData.altitude r
       = IMoonPosition.altitudeDegrees
           (getMoonPosition ext time (lat ext this) (lon ext this))
    /\ (forall startTime ms : Z,
          (0 <= ms < 60000)%Z ->
          time = (startTime + getHours clock time * 3600000
                  + getMinutes clock time * 60000 + ms)%Z ->
          (sampleTime startTime (RiseSetData.index r) <= time
           < sampleTime startTime (RiseSetData.index r + 1))%Z).
Proof.
  intros Hkey Hh Hm.
  set (h := getHours clock time) in *. set (m := getMinutes clock time) in *.
  assert (Hidx : Math_floor ((inject_Z h + inject_Z m / 60) * 2)
                 = (2 * h + m / 30)%Z).
  { unfold Math_floor.
    assert (Hdm : m = (30 * (m / 30) + m mod 30)%Z) by (apply Z.div_mod; lia).
    pose proof (Z.mod_pos_bound m 30 eq_refl) as [Hr0 Hr30].
    assert (HmQ : inject_Z m
                  == 30 * inject_Z (m / 30) + inject_Z (m mod 30)).
    { rewrite Hdm at 1. rewrite inject_Z_plus, inject_Z_mult. reflexivity. }
    rewrite Zle_Qle in Hr0. rewrite Zlt_Qlt in Hr30.
    assert (Hb : (2 * h + m / 30 <= Qfloor ((inject_Z h + inject_Z m / 60) * 2)
                  < 2 * h + m / 30 + 1)%Z).
    { apply Qfloor_bounds;
        rewrite ?inject_Z_plus, ?inject_Z_mult; qsolve. }
    lia. }
  assert (Hdm : m = (30 * (m / 30) + m mod 30)%Z) by (apply Z.div_mod; lia).
  pose proof (Z.mod_pos_bound m 30 eq_refl) as Hr.
  eexists. unfold _getRiseSetData. rewrite Hkey. cbv zeta. fold h m.
  split; [reflexivity |]. cbn [RiseSetData.index RiseSetData.altitude].
  rewrite Hidx. split; [reflexivity |]. split; [lia |]. split; [reflexivity |].
  intros startTime ms Hms Htime. unfold sampleTime. lia.
Qed.

Lemma getRiseSetData_index_witness :
  exists r : RiseSetData.t,
    _getRiseSetData (Sample.host Sample.utc None 1) (sample_clock Sample.utc)
      (Sample.moon Sample.utc None 1 "en" None) 1704100000000%Z "rise" = Some r
    /\ RiseSetData.index r = 28%Z.
Proof.
  destruct (getRiseSetData_index (Sample.host Sample.utc None 1)
              (sample_clock Sample.utc)
              (Sample.moon Sample.utc None 1 "en" None) 1704100000000%Z "rise"
              1704117600000%Z) as (r & Hr & Hidx & _).
  - reflexivity.
  - vm_compute. split; discriminate.
  - vm_compute. split; discriminate.
  - exists r. split; [exact Hr |]. rewrite Hidx. reflexivity.
Defined.
